(** * IndexChain parser (bchain/coins/indexchain/indexchainparser.go)

    A shallow embedding of the IndexChain block and transaction parser of
    blockbook, and the properties of its header decoder, transaction
    normalizer, address resolver, block assembler and JSON importer. *)

From Stdlib Require Import ZArith List String Ascii Bool Lia.
From Stdlib Require Import Strings.Byte.
Import ListNotations.

Local Open Scope string_scope.
Local Open Scope Z_scope.
Local Open Scope list_scope.

Set Implicit Arguments.

(** ** Go values *)

(** Go's [error] values that this file meets.  [io_EOF] and
    [io_ErrUnexpectedEOF] are the two errors of [io.ReadFull];
    [wire_ErrNonCanonicalVarInt] is the [wire.MessageError] that
    [wire.ReadVarInt] builds from the decoded value, the discriminant and the
    least canonical value; [errors_New] stands for any other error an external
    routine returns. *)
Inductive error : Type :=
| io_EOF
| io_ErrUnexpectedEOF
| wire_ErrNonCanonicalVarInt (rv : Z) (discriminant : byte) (min : Z)
| errors_New (text : string).

(** The outcome of a Go call that returns [(value, error)]: a value with a nil
    error, a non-nil error, or a run-time panic that unwinds the caller. *)
Inductive result (A : Type) : Type :=
| Ok (a : A)
| Err (e : error)
| Panic (msg : string).

Arguments Ok {A} a.
Arguments Err {A} e.
Arguments Panic {A} msg.

Definition bind {A B : Type} (m : result A) (k : A -> result B) : result B :=
  match m with
  | Ok a => k a
  | Err e => Err e
  | Panic msg => Panic msg
  end.

Notation "x <- m ;; k" := (bind m (fun x => k))
  (at level 61, m at next level, right associativity).
Notation "' pat <- m ;; k" := (bind m (fun x => match x with pat => k end))
  (at level 61, pat pattern, m at next level, right associativity).

(** ** Package bchain: the transaction and block shapes *)

Module bchain.

Module ScriptSig.
(** Modelled from the spec: the declarations of package bchain are not under
    src/; the script data of an input, in hexadecimal. *)
Record t : Type := mk { Hex : string }.
End ScriptSig.

Module Vin.
(** Modelled from the spec: section 3 gives each input a
    previous-transaction-id, a previous-output-index, a sequence number and a
    coinbase marker, next to its script data and addresses. *)
Record t : Type := mk {
  Coinbase : string;
  Txid : string;
  Vout : Z;               (* uint32 *)
  ScriptSig : ScriptSig.t;
  Sequence : Z;           (* uint32 *)
  Addresses : list string
}.
End Vin.

Module ScriptPubKey.
(** Modelled from the spec: the raw script of an output, in hexadecimal, and
    its addresses. *)
Record t : Type := mk { Hex : string; Addresses : list string }.
End ScriptPubKey.

Module Vout.
(** Modelled from the spec: each output has an integer satoshi amount, the
    transient decimal amount of the JSON form, and a raw script. *)
Record t : Type := mk {
  ValueSat : Z;           (* big.Int *)
  JsonValue : string;     (* common.JSONNumber *)
  N : Z;                  (* uint32 *)
  ScriptPubKey : ScriptPubKey.t
}.
End Vout.

Module Tx.
(** Modelled from the spec: a transaction is an ordered sequence of inputs
    and of outputs, next to its identification and timing fields. *)
Record t : Type := mk {
  Hex : string;
  Txid : string;
  Version : Z;            (* int32 *)
  LockTime : Z;           (* uint32 *)
  Vin : list Vin.t;
  Vout : list Vout.t;
  Confirmations : Z;      (* uint32 *)
  Time : Z;               (* int64 *)
  Blocktime : Z           (* int64 *)
}.

(** The zero value, as [make([]bchain.Tx, n)] fills a fresh slice. *)
Definition zero : t := mk EmptyString EmptyString 0 0 [] [] 0 0 0.
End Tx.

Module BlockHeader.
(** Modelled from the spec: a block carries the size in bytes of the
    original buffer and the header's time; the parser fills nothing else. *)
Record t : Type := mk {
  Hash : string;
  Prev : string;
  Next : string;
  Height : Z;             (* uint32 *)
  Confirmations : Z;      (* int *)
  Size : Z;               (* int *)
  Time : Z                (* int64 *)
}.
End BlockHeader.

Module Block.
(** Modelled from the spec: a block is its header and the ordered sequence
    of its transactions. *)
Record t : Type := mk {
  BlockHeader : BlockHeader.t;
  Txs : list Tx.t
}.
End Block.

(** An address descriptor is the raw output script. *)
Definition AddressDescriptor : Type := list byte.

End bchain.

(** ** Package index: constants *)

Definition OpZeroCoinMint : byte := xc1.
Definition OpZeroCoinSpend : byte := xc2.
Definition OpSigmaMint : byte := xc3.
Definition OpSigmaSpend : byte := xc4.

Definition SpendTxID : string :=
  "0000000000000000000000000000000000000000000000000000000000000000".

(** chainhash.HashSize: the bytes of a transaction hash; its hex form has
    twice as many characters. *)
Definition HashSize : nat := 32.

(** [n] copies of the character [c]. *)
Fixpoint replicate (n : nat) (c : ascii) : string :=
  match n with
  | O => EmptyString
  | S n' => String c (replicate n' c)
  end.

(** ** Package encoding/hex *)

Module hex.

Definition hextable : string := "0123456789abcdef".

Definition digit (n : N) : ascii :=
  match String.get (N.to_nat n) hextable with
  | Some c => c
  | None => "0"%char
  end.

(** hex.EncodeToString: two characters a byte, the high half first. *)
Fixpoint EncodeToString (src : list byte) : string :=
  match src with
  | [] => EmptyString
  | v :: rest =>
      String (digit (N.shiftr (Byte.to_N v) 4))
        (String (digit (N.land (Byte.to_N v) 15)) (EncodeToString rest))
  end.

End hex.

(** ** The transaction normalizer *)

(** The body of the loop of [parseIndexTx], on the input [tx.Vin[i]]. *)
Definition parseIndexVin (vin : bchain.Vin.t) : bchain.Vin.t :=
  if String.eqb (bchain.Vin.Txid vin) SpendTxID then
    bchain.Vin.mk
      (bchain.Vin.Txid vin)           (* vin.Coinbase = vin.Txid *)
      EmptyString                     (* vin.Txid = the empty string *)
      0                               (* vin.Vout = 0 *)
      (bchain.Vin.ScriptSig vin)
      0                               (* vin.Sequence = 0 *)
      (bchain.Vin.Addresses vin)
  else vin.

(** [parseIndexTx] rewrites the inputs of [tx] in place and returns a nil
    error: the pair is the transaction after the call and the error. *)
Definition parseIndexTx (tx : bchain.Tx.t) : bchain.Tx.t * option error :=
  (bchain.Tx.mk
     (bchain.Tx.Hex tx) (bchain.Tx.Txid tx) (bchain.Tx.Version tx)
     (bchain.Tx.LockTime tx)
     (map parseIndexVin (bchain.Tx.Vin tx))
     (bchain.Tx.Vout tx)
     (bchain.Tx.Confirmations tx) (bchain.Tx.Time tx) (bchain.Tx.Blocktime tx),
   None).

(** ** Package io *)

(** The unread part of a [bytes.Reader]: the bytes from its position on. *)
Definition Reader : Type := list byte.

Module io.

(** [io.ReadFull(r, buf)] with [len(buf) = n]: it fills the buffer, or fails
    with [io.EOF] when nothing could be read and with [io.ErrUnexpectedEOF]
    when the stream ends inside the buffer.  A buffer of length 0 reads
    nothing and succeeds. *)
Definition ReadFull (r : Reader) (n : nat) : result (list byte * Reader) :=
  if (n <=? List.length r)%nat then Ok (firstn n r, skipn n r)
  else match r with
       | [] => Err io_EOF
       | _ :: _ => Err io_ErrUnexpectedEOF
       end.

End io.

(** ** Package runtime *)

Module runtime.

(** [make([]T, len)] for a [len] of type uint64 and elements of [elemsize]
    bytes, filled with [zero]: the call of runtime.makeslice.  It panics
    when [len], converted to int, is negative, or when the slice would take
    more than [maxAlloc] bytes, the allocation limit of the platform. *)
Definition makeslice {T : Type} (maxAlloc elemsize : Z) (zero : T) (len : Z)
  : result (list T) :=
  if (len <? 2 ^ 63) && (elemsize * len <=? maxAlloc)
  then Ok (repeat zero (Z.to_nat len))
  else Panic "runtime error: makeslice: len out of range".

(** [s[i] = x]: an index outside the slice panics. *)
Fixpoint setindex {T : Type} (s : list T) (i : nat) (x : T)
  : result (list T) :=
  match s, i with
  | [], _ => Panic "runtime error: index out of range"
  | _ :: s', O => Ok (x :: s')
  | y :: s', S i' => s'' <- setindex s' i' x ;; Ok (y :: s'')
  end.

End runtime.

(** ** Package wire *)

Module wire.

(** Package wire of btcd is not under src/; what the parser calls of it is
    modelled here.  The value of a byte, and of a little-endian byte
    string. *)
Definition uint8 (b : byte) : Z := Z.of_N (Byte.to_N b).

Fixpoint littleEndian (bs : list byte) : Z :=
  match bs with
  | [] => 0
  | b :: bs' => uint8 b + 256 * littleEndian bs'
  end.

(** binarySerializer.Uint8, Uint16, Uint32 and Uint64: [io.ReadFull] on a
    buffer of 1, 2, 4 or 8 bytes, decoded in little-endian order. *)
Definition Uint8 (r : Reader) : result (byte * Reader) :=
  '(buf, r) <- io.ReadFull r 1 ;;
  Ok (hd x00 buf, r).

Definition Uint16 (r : Reader) : result (Z * Reader) :=
  '(buf, r) <- io.ReadFull r 2 ;;
  Ok (littleEndian buf, r).

Definition Uint32 (r : Reader) : result (Z * Reader) :=
  '(buf, r) <- io.ReadFull r 4 ;;
  Ok (littleEndian buf, r).

Definition Uint64 (r : Reader) : result (Z * Reader) :=
  '(buf, r) <- io.ReadFull r 8 ;;
  Ok (littleEndian buf, r).

(** Modelled from the spec: wire.ReadVarInt is not under src/.  It reads the
    Bitcoin compact-size encoding: a discriminant byte below 0xfd is the
    value; 0xfd, 0xfe and 0xff announce a little-endian value of 2, 4 and 8
    bytes, refused when it would have fitted a shorter form. *)
Definition ReadVarInt (r : Reader) : result (Z * Reader) :=
  '(discriminant, r) <- Uint8 r ;;
  match discriminant with
  | xff =>
      '(sv, r) <- Uint64 r ;;
      let min := 0x100000000 in
      if sv <? min then Err (wire_ErrNonCanonicalVarInt sv discriminant min)
      else Ok (sv, r)
  | xfe =>
      '(sv, r) <- Uint32 r ;;
      let min := 0x10000 in
      if sv <? min then Err (wire_ErrNonCanonicalVarInt sv discriminant min)
      else Ok (sv, r)
  | xfd =>
      '(sv, r) <- Uint16 r ;;
      let min := 0xfd in
      if sv <? min then Err (wire_ErrNonCanonicalVarInt sv discriminant min)
      else Ok (sv, r)
  | _ => Ok (uint8 discriminant, r)
  end.

(** wire.VarIntSerializeSize: the bytes the compact-size form of [val]
    takes. *)
Definition VarIntSerializeSize (val : Z) : Z :=
  if val <? 0xfd then 1
  else if val <=? 0xffff then 3
  else if val <=? 0xffffffff then 5
  else 9.

(** int32(v) for a uint32 [v]. *)
Definition int32 (v : Z) : Z := if v <? 2 ^ 31 then v else v - 2 ^ 32.

Module BlockHeader.

Record t : Type := mk {
  Version : Z;                (* int32 *)
  PrevBlock : list byte;      (* chainhash.Hash *)
  MerkleRoot : list byte;     (* chainhash.Hash *)
  Timestamp : Z;              (* time.Time, in seconds since the epoch *)
  Bits : Z;                   (* uint32 *)
  Nonce : Z                   (* uint32 *)
}.

(** Modelled from the spec: wire.BlockHeader.Deserialize is not under src/.
    It reads the fixed Bitcoin header of 80 bytes: version, previous-block
    hash, merkle root, time, bits and nonce. *)
Definition Deserialize (r : Reader) : result (t * Reader) :=
  '(version, r) <- Uint32 r ;;
  '(prevBlock, r) <- io.ReadFull r 32 ;;
  '(merkleRoot, r) <- io.ReadFull r 32 ;;
  '(sec, r) <- Uint32 r ;;
  '(bits, r) <- Uint32 r ;;
  '(nonce, r) <- Uint32 r ;;
  Ok (mk (int32 version) prevBlock merkleRoot sec bits nonce, r).

(** [h.Timestamp.Unix()]. *)
Definition Unix (sec : Z) : Z := sec.

End BlockHeader.

End wire.

(** ** Package bchain: the amount parser *)

Module BaseParser.

(** big.Int.SetString(s, 10): an optional sign and at least one decimal
    digit, nothing else. *)
Definition digit (c : ascii) : option Z :=
  let n := Z.of_nat (nat_of_ascii c) in
  if (48 <=? n) && (n <=? 57) then Some (n - 48) else None.

Fixpoint digits (s : string) (acc : Z) : option Z :=
  match s with
  | EmptyString => Some acc
  | String c s' =>
      match digit c with
      | Some d => digits s' (10 * acc + d)
      | None => None
      end
  end.

Definition unsigned (s : string) : option Z :=
  match s with
  | EmptyString => None
  | _ => digits s 0
  end.

Definition SetString (s : string) : option Z :=
  match s with
  | String "+" s' => unsigned s'
  | String "-" s' => option_map Z.opp (unsigned s')
  | _ => unsigned s
  end.

Definition zeros : string := "0000000000000000000000000000000000000000".

(** Modelled from the spec: BaseParser.AmountToBigInt is not under src/.  It
    is the decimal-string-to-integer amount conversion of a chain with
    [AmountDecimalPoint] decimal places: the decimal point moves that many
    places to the right, by string operations, and the digits are read as an
    integer; a string that is no decimal number is an error. *)
Definition AmountToBigInt (AmountDecimalPoint : nat) (n : string) : result Z :=
  let s := n in
  let d := Nat.min AmountDecimalPoint (String.length zeros) in
  let s :=
    match String.index 0 "." s with
    | None => (s ++ substring 0 d zeros)%string
    | Some i =>
        let len := String.length s in
        if (len <? d + i + 1)%nat
        then (substring 0 i s ++ substring (i + 1) (len - i - 1) s
              ++ substring 0 (d + i + 1 - len) zeros)%string
        else (substring 0 i s ++ substring (i + 1) d s)%string
    end in
  match SetString s with
  | Some r => Ok r
  | None => Err (errors_New "AmountToBigInt: failed to convert")
  end.

End BaseParser.

(** ** Package index: the parser *)

(** What [GetAddressesFromAddrDesc] returns: the addresses, the searchable
    flag and the error. *)
Definition Resolution : Type := (list string * bool * option error)%type.

(** The members of the embedded btc.BitcoinParser that the parser calls; they
    are declared outside src/ and stay parameters.  [MsgTx] is wire.MsgTx. *)
Record IndexChainParser (MsgTx : Type) : Type := {
  OutputScriptToAddressesFunc : bchain.AddressDescriptor -> Resolution;
  TxFromMsgTx : MsgTx -> bool -> bchain.Tx.t;
  AmountToBigInt : string -> result Z
}.

(** ** Package chaincfg *)

Module chaincfg.

(** Package chaincfg of btcutil is not under src/.  Of its network
    parameters the parser sets the network magic and the address prefixes;
    [Name] stands for the fields it copies untouched. *)
Record Params : Type := mk {
  Name : string;
  Net : Z;                          (* wire.BitcoinNet, uint32 *)
  AddressMagicLen : Z;
  PubKeyHashAddrID : list byte;
  ScriptHashAddrID : list byte
}.

(** The process-wide registry: the keys of [registeredNets]. *)
Definition Registry : Type := list Z.

Definition ErrDuplicateNet : error := errors_New "duplicate Bitcoin network".

(** chaincfg.IsRegistered: whether the magic of the network is a key of the
    registry. *)
Definition IsRegistered (params : Params) (registeredNets : Registry) : bool :=
  existsb (Z.eqb (Net params)) registeredNets.

(** chaincfg.Register: a network whose magic is registered is refused with
    [ErrDuplicateNet]; any other is added.  The error and the registry after
    the call. *)
Definition Register (params : Params) (registeredNets : Registry)
  : option error * Registry :=
  if IsRegistered params registeredNets
  then (Some ErrDuplicateNet, registeredNets)
  else (None, Net params :: registeredNets).

End chaincfg.

(** ** Package index: the network parameters *)

Definition MainnetMagic : Z := 0xe3d9fef1.
Definition TestnetMagic : Z := 0xcffcbeea.
Definition RegtestMagic : Z := 0xfabfb5da.

Definition GenesisBlockTime : Z := 1414776286.
Definition SwitchToMTPBlockHeader : Z := 1544443200.
Definition MTPL : Z := 64.

(** The package variables [MainNetParams], [TestNetParams] and
    [RegtestParams]. *)
Record Nets : Type := {
  MainNetParams : chaincfg.Params;
  TestNetParams : chaincfg.Params;
  RegtestParams : chaincfg.Params
}.

(** [init], from chaincfg.MainNetParams, chaincfg.TestNet3Params and
    chaincfg.RegressionNetParams: each is copied and the magic replaced; the
    main and the test network get their address prefixes as well. *)
Definition init (lib : Nets) : Nets :=
  {| MainNetParams :=
       chaincfg.mk (chaincfg.Name (MainNetParams lib)) MainnetMagic
         1 [x52] [x07];
     TestNetParams :=
       chaincfg.mk (chaincfg.Name (TestNetParams lib)) TestnetMagic
         1 [x41] [xb2];
     RegtestParams :=
       chaincfg.mk (chaincfg.Name (RegtestParams lib)) RegtestMagic
         (chaincfg.AddressMagicLen (RegtestParams lib))
         (chaincfg.PubKeyHashAddrID (RegtestParams lib))
         (chaincfg.ScriptHashAddrID (RegtestParams lib)) |}.

(** The text of an error, as [panic(err)] shows it. *)
Definition Error (e : error) : string :=
  match e with
  | io_EOF => "EOF"
  | io_ErrUnexpectedEOF => "unexpected EOF"
  | wire_ErrNonCanonicalVarInt _ _ _ => "ReadVarInt: non-canonical varint"
  | errors_New text => text
  end.

(** The [switch chain] of [GetChainParams]. *)
Definition selectParams (vars : Nets) (chain : string) : chaincfg.Params :=
  if String.eqb chain "test" then TestNetParams vars
  else if String.eqb chain "regtest" then RegtestParams vars
  else MainNetParams vars.

(** [GetChainParams]: what the call returns, and the registry after it.  A
    panic leaves the registry as the calls of [Register] before it made
    it. *)
Definition GetChainParams (vars : Nets) (chain : string)
    (registeredNets : chaincfg.Registry)
  : result chaincfg.Params * chaincfg.Registry :=
  let '(err, registeredNets) :=
    if negb (chaincfg.IsRegistered (MainNetParams vars) registeredNets) then
      let '(err, registeredNets) :=
        chaincfg.Register (MainNetParams vars) registeredNets in
      let '(err, registeredNets) :=
        match err with
        | None => chaincfg.Register (TestNetParams vars) registeredNets
        | Some _ => (err, registeredNets)
        end in
      let '(err, registeredNets) :=
        match err with
        | None => chaincfg.Register (RegtestParams vars) registeredNets
        | Some _ => (err, registeredNets)
        end in
      (err, registeredNets)
    else (None, registeredNets) in
  match err with
  | Some e => (Panic (Error e), registeredNets)
  | None => (Ok (selectParams vars chain), registeredNets)
  end.

(** A transaction without a sentinel input. *)
Definition Normalized (tx : bchain.Tx.t) : Prop :=
  Forall (fun vin => bchain.Vin.Txid vin <> SpendTxID) (bchain.Tx.Vin tx).

(** ** Test data: the library's networks

    The parameters and the registry as package chaincfg sets them up. *)

Module Bitcoin.

Definition lib : Nets :=
  {| MainNetParams := chaincfg.mk "mainnet" 0xd9b4bef9 1 [x00] [x05];
     TestNetParams := chaincfg.mk "testnet3" 0x0709110b 1 [x6f] [xc4];
     RegtestParams := chaincfg.mk "regtest" 0xdab5bffa 1 [x6f] [xc4] |}.

Definition registeredNets : chaincfg.Registry :=
  [0xd9b4bef9; 0xdab5bffa; 0x0709110b; 0x12141c16].

End Bitcoin.

(** ** Test data

    A small parser instance for the examples: its transaction decoder reads
    one byte, and the byte 0 stands for a transaction with one
    privacy-protocol spend input. *)

Module Fixture.

Definition MsgTx : Type := byte.

Definition BtcDecode : Reader -> result (MsgTx * Reader) := wire.Uint8.

Definition vin (txid : string) : bchain.Vin.t :=
  bchain.Vin.mk EmptyString txid 7 (bchain.ScriptSig.mk "c4") 4294967295
    ["a1"].

Definition fromMsgTx (m : MsgTx) (_ : bool) : bchain.Tx.t :=
  bchain.Tx.mk EmptyString "t1" 1 0
    [vin (if Byte.eqb m x00 then SpendTxID else "ab")] [] 0 0 0.

Definition resolver (addrDesc : bchain.AddressDescriptor) : Resolution :=
  match addrDesc with
  | [] => ([], false, None)
  | _ :: _ => (["a1"], true, None)
  end.

Definition parser : IndexChainParser MsgTx :=
  {| OutputScriptToAddressesFunc := resolver;
     TxFromMsgTx := fromMsgTx;
     AmountToBigInt := BaseParser.AmountToBigInt 8 |}.

(** A header of 80 bytes with the time 0x5c0e5f80 and the given nonce. *)
Definition header (nonce : list byte) : list byte :=
  [x01; x00; x00; x00] ++ repeat x00 32 ++ repeat x11 32
  ++ [x80; x5f; x0e; x5c] ++ [xff; xff; x00; x1d] ++ nonce.

Definition vout (value : string) : bchain.Vout.t :=
  bchain.Vout.mk 0 value 0 (bchain.ScriptPubKey.mk "76a9" ["a1"]).

Definition tx (vouts : list bchain.Vout.t) : bchain.Tx.t :=
  bchain.Tx.mk EmptyString "t1" 1 0 [vin SpendTxID; vin "ab"] vouts 0 0 0.

(** A stand-in for json.Unmarshal: the empty message is malformed, the
    message of one byte [xbb] has an output with a malformed amount, any
    other carries one output of amount 1.5. *)
Definition json_Unmarshal (msg : list byte) : result bchain.Tx.t :=
  match msg with
  | [] => Err (errors_New "unexpected end of JSON input")
  | [xbb] => Ok (tx [vout "1.5"; vout "1.x"])
  | _ => Ok (tx [vout "1.5"])
  end.

(** The header that [header] encodes. *)
Definition decoded (nonce : Z) : wire.BlockHeader.t :=
  wire.BlockHeader.mk 1 (repeat x00 32) (repeat x11 32)
    1544445824 486604799 nonce.

(** The transaction of the byte 0, normalized. *)
Definition spend : bchain.Tx.t :=
  bchain.Tx.mk EmptyString "t1" 1 0
    [bchain.Vin.mk SpendTxID EmptyString 0 (bchain.ScriptSig.mk "c4") 0
       ["a1"]]
    [] 0 0 0.

Definition block (size : Z) (txs : list bchain.Tx.t) : bchain.Block.t :=
  bchain.Block.mk
    (bchain.BlockHeader.mk EmptyString EmptyString EmptyString 0 0
       size 1544445824)
    txs.

(** The platform of the examples: linux/amd64. *)
Definition maxAlloc : Z := 2 ^ 48.
Definition sizeofTx : Z := 112.

End Fixture.

(** ** Test data: buffers and their results *)

Module Sample.

(** A header with nonce 0, a trailer of three bytes and no transaction. *)
Definition staked : list byte :=
  Fixture.header [x00; x00; x00; x00] ++ [x03; xaa; xbb; xcc] ++ [x00].

(** A header with a nonzero nonce and two transactions. *)
Definition mined : list byte :=
  Fixture.header [x01; x00; x00; x00] ++ [x02; x00; x01].

(** A header followed by the largest compact-size value. *)
Definition oversized (nonce : list byte) : list byte :=
  Fixture.header nonce ++ repeat xff 9.

(** The transaction that the JSON stand-in gives for [[x01]], imported. *)
Definition imported : bchain.Tx.t :=
  bchain.Tx.mk EmptyString "t1" 1 0
    [bchain.Vin.mk SpendTxID EmptyString 0 (bchain.ScriptSig.mk "c4") 0
       ["a1"];
     Fixture.vin "ab"]
    [bchain.Vout.mk 150000000 EmptyString 0
       (bchain.ScriptPubKey.mk "76a9" ["a1"])]
    0 0 0.

End Sample.

Section IndexChainParser.

(** The allocation limit of the runtime and the size of a [bchain.Tx]; both
    depend on the platform. *)
Variable maxAlloc : Z.
Variable sizeofTx : Z.

(** wire.MsgTx and its [BtcDecode(reader, 0, wire.WitnessEncoding)], the
    generic transaction decoder: the decoded message and the reader after
    it. *)
Variable MsgTx : Type.
Variable BtcDecode : Reader -> result (MsgTx * Reader).

(** [json.Unmarshal(msg, &tx)] into a fresh [bchain.Tx]. *)
Variable json_Unmarshal : list byte -> result bchain.Tx.t.

Variable p : IndexChainParser MsgTx.

(** The [if len(addrDesc) > 0 { switch addrDesc[0] ... }] of
    [GetAddressesFromAddrDesc]: what it returns, when it returns. *)
Definition reservedLabel (addrDesc : bchain.AddressDescriptor)
  : option Resolution :=
  match addrDesc with
  | [] => None
  | op :: _ =>
      if Byte.eqb op OpZeroCoinMint then Some (["Zeromint"], false, None)
      else if Byte.eqb op OpZeroCoinSpend then Some (["Zerospend"], false, None)
      else if Byte.eqb op OpSigmaMint then Some (["Sigmamint"], false, None)
      else if Byte.eqb op OpSigmaSpend then Some (["Sigmaspend"], false, None)
      else None
  end.

(** [GetAddressesFromAddrDesc]: the resolution, and the descriptors that the
    call handed to the generic resolver, in order. *)
Definition GetAddressesFromAddrDesc (addrDesc : bchain.AddressDescriptor)
  : Resolution * list bchain.AddressDescriptor :=
  match reservedLabel addrDesc with
  | Some res => (res, [])
  | None => (OutputScriptToAddressesFunc p addrDesc, [addrDesc])
  end.

(** [parseBlockHeader]: the header and the reader after the call. *)
Definition parseBlockHeader (r : Reader)
  : result (wire.BlockHeader.t * Reader) :=
  '(h, r) <- wire.BlockHeader.Deserialize r ;;
  if wire.BlockHeader.Nonce h =? 0 then
    '(sigLength, r) <- wire.ReadVarInt r ;;
    sigBuf <- runtime.makeslice maxAlloc 1 x00 sigLength ;;
    '(_, r) <- io.ReadFull r (List.length sigBuf) ;;
    Ok (h, r)
  else Ok (h, r).

(** The loop of [ParseBlock] with [n] iterations left: the transaction [i] is
    decoded, converted, normalized and stored in [txs[i]]. *)
Fixpoint ParseBlock_loop (n i : nat) (txs : list bchain.Tx.t)
    (reader : Reader)
  : result (list bchain.Tx.t * Reader) :=
  match n with
  | O => Ok (txs, reader)
  | S n' =>
      '(tx, reader) <- BtcDecode reader ;;
      let btx := TxFromMsgTx p tx false in
      let (btx, _) := parseIndexTx btx in
      txs <- runtime.setindex txs i btx ;;
      ParseBlock_loop n' (S i) txs reader
  end.

(** [ParseBlock], with the local [reader] as it stands at the return. *)
Definition ParseBlock_reader (b : list byte)
  : result (bchain.Block.t * Reader) :=
  let reader := b in
  '(header, reader) <- parseBlockHeader reader ;;
  '(ntx, reader) <- wire.ReadVarInt reader ;;
  txs <- runtime.makeslice maxAlloc sizeofTx bchain.Tx.zero ntx ;;
  '(txs, reader) <- ParseBlock_loop (Z.to_nat ntx) 0 txs reader ;;
  Ok (bchain.Block.mk
        (bchain.BlockHeader.mk EmptyString EmptyString EmptyString 0 0
           (Z.of_nat (List.length b))
           (wire.BlockHeader.Unix (wire.BlockHeader.Timestamp header)))
        txs,
      reader).

Definition ParseBlock (b : list byte) : result bchain.Block.t :=
  '(block, _) <- ParseBlock_reader b ;;
  Ok block.

(** The loop of [ParseTxFromJson] over [tx.Vout]. *)
Fixpoint ParseTxFromJson_loop (vouts : list bchain.Vout.t)
  : result (list bchain.Vout.t) :=
  match vouts with
  | [] => Ok []
  | vout :: rest =>
      valueSat <- AmountToBigInt p (bchain.Vout.JsonValue vout) ;;
      let vout := bchain.Vout.mk valueSat EmptyString
                    (bchain.Vout.N vout) (bchain.Vout.ScriptPubKey vout) in
      rest <- ParseTxFromJson_loop rest ;;
      Ok (vout :: rest)
  end.

Definition ParseTxFromJson (msg : list byte) : result bchain.Tx.t :=
  tx <- json_Unmarshal msg ;;
  vouts <- ParseTxFromJson_loop (bchain.Tx.Vout tx) ;;
  let tx := bchain.Tx.mk
              (bchain.Tx.Hex tx) (bchain.Tx.Txid tx) (bchain.Tx.Version tx)
              (bchain.Tx.LockTime tx) (bchain.Tx.Vin tx) vouts
              (bchain.Tx.Confirmations tx) (bchain.Tx.Time tx)
              (bchain.Tx.Blocktime tx) in
  let (tx, _) := parseIndexTx tx in
  Ok tx.

(** The transactions that [BtcDecode] reads one after the other from a
    reader, and the reader after the last. *)
Inductive Decodes : Reader -> list MsgTx -> Reader -> Prop :=
| Decodes_nil (r : Reader) : Decodes r [] r
| Decodes_cons (r : Reader) (tx : MsgTx) (r1 : Reader)
    (txs : list MsgTx) (r' : Reader) :
    BtcDecode r = Ok (tx, r1) -> Decodes r1 txs r' -> Decodes r (tx :: txs) r'.

(** What [ParseBlock] stores for a decoded transaction. *)
Definition normalized (tx : MsgTx) : bchain.Tx.t :=
  fst (parseIndexTx (TxFromMsgTx p tx false)).

(** A decoder that reads its value from the front of the stream and never
    looks past what it consumes. *)
Definition StreamDecoder {A : Type} (D : Reader -> result (A * Reader))
  : Prop :=
  forall r a r',
    D r = Ok (a, r') ->
    exists c, r = c ++ r' /\ forall x, D (c ++ x) = Ok (a, x).

(** The lengths that [make] accepts for elements of [elemsize] bytes. *)
Definition allocatable (elemsize len : Z) : Prop :=
  len < 2 ^ 63 /\ elemsize * len <= maxAlloc.

(** What the loop of [ParseTxFromJson] makes of an output. *)
Definition converted (vout vout' : bchain.Vout.t) : Prop :=
  AmountToBigInt p (bchain.Vout.JsonValue vout)
  = Ok (bchain.Vout.ValueSat vout')
  /\ bchain.Vout.JsonValue vout' = EmptyString
  /\ bchain.Vout.N vout' = bchain.Vout.N vout
  /\ bchain.Vout.ScriptPubKey vout' = bchain.Vout.ScriptPubKey vout.

(** * Properties *)

Unset Implicit Arguments.

(** ** The transaction normalizer *)

Lemma parseIndexVin_sentinel (vin : bchain.Vin.t) :
  bchain.Vin.Txid vin = SpendTxID ->
  parseIndexVin vin =
  bchain.Vin.mk SpendTxID EmptyString 0 (bchain.Vin.ScriptSig vin) 0
    (bchain.Vin.Addresses vin).
Proof.
  intros H. unfold parseIndexVin.
  rewrite H, String.eqb_refl. reflexivity.
Qed.

Lemma parseIndexVin_other (vin : bchain.Vin.t) :
  bchain.Vin.Txid vin <> SpendTxID -> parseIndexVin vin = vin.
Proof.
  intros H. unfold parseIndexVin.
  apply String.eqb_neq in H. rewrite H. reflexivity.
Qed.

Lemma parseIndexVin_Txid (vin : bchain.Vin.t) :
  bchain.Vin.Txid (parseIndexVin vin) <> SpendTxID.
Proof.
  unfold parseIndexVin.
  destruct (String.eqb (bchain.Vin.Txid vin) SpendTxID) eqn:E; simpl.
  - discriminate.
  - apply String.eqb_neq. exact E.
Qed.

Lemma parseIndexVin_idempotent (vin : bchain.Vin.t) :
  parseIndexVin (parseIndexVin vin) = parseIndexVin vin.
Proof. apply parseIndexVin_other, parseIndexVin_Txid. Qed.

Lemma parseIndexTx_Vin (tx : bchain.Tx.t) :
  bchain.Tx.Vin (fst (parseIndexTx tx)) = map parseIndexVin (bchain.Tx.Vin tx).
Proof. reflexivity. Qed.

(** C1, as amended: the sentinel is the string of 64 hexadecimal zero
    characters, the hex form of 32 zero bytes, as long as the hex form of a
    standard 32-byte hash; the normalizer changes an input exactly when its
    previous-transaction-id equals this string. *)
Theorem C1_sentinel_is_the_zero_hash :
  SpendTxID = replicate 64 "0"
  /\ String.length SpendTxID = (2 * HashSize)%nat
  /\ SpendTxID = hex.EncodeToString (repeat x00 HashSize)
  /\ forall vin : bchain.Vin.t,
       parseIndexVin vin <> vin <-> bchain.Vin.Txid vin = SpendTxID.
Proof.
  repeat split; try reflexivity.
  - intros Hchanged.
    destruct (String.eqb (bchain.Vin.Txid vin) SpendTxID) eqn:E.
    + apply String.eqb_eq. exact E.
    + exfalso. apply Hchanged, parseIndexVin_other, String.eqb_neq. exact E.
  - intros Hsentinel Hsame.
    apply (parseIndexVin_Txid vin). rewrite Hsame. exact Hsentinel.
Qed.

(** C2: an input whose previous-transaction-id is the sentinel has, after
    the normalizer, the sentinel as its coinbase field, an empty
    previous-transaction-id, and 0 as output index and as sequence number;
    any other input is unchanged. *)
Theorem C2_sentinel_inputs_rewritten
    (tx : bchain.Tx.t) (i : nat) (vin : bchain.Vin.t) :
  nth_error (bchain.Tx.Vin tx) i = Some vin ->
  exists vin',
    nth_error (bchain.Tx.Vin (fst (parseIndexTx tx))) i = Some vin'
    /\ (bchain.Vin.Txid vin = SpendTxID ->
        bchain.Vin.Coinbase vin' = SpendTxID
        /\ bchain.Vin.Txid vin' = EmptyString
        /\ bchain.Vin.Vout vin' = 0
        /\ bchain.Vin.Sequence vin' = 0)
    /\ (bchain.Vin.Txid vin <> SpendTxID -> vin' = vin).
Proof.
  intros Hnth. exists (parseIndexVin vin). split.
  - rewrite parseIndexTx_Vin. apply map_nth_error. exact Hnth.
  - split.
    + intros H. rewrite (parseIndexVin_sentinel vin H). simpl. auto.
    + apply parseIndexVin_other.
Qed.

(** C7: the normalizer is idempotent, because after one pass no input's
    previous-transaction-id equals the sentinel. *)
Theorem C7_normalizer_idempotent (tx : bchain.Tx.t) :
  parseIndexTx (fst (parseIndexTx tx)) = parseIndexTx tx
  /\ Forall (fun vin => bchain.Vin.Txid vin <> SpendTxID)
       (bchain.Tx.Vin (fst (parseIndexTx tx))).
Proof.
  split.
  - unfold parseIndexTx. simpl. rewrite map_map.
    f_equal. f_equal. apply map_ext. apply parseIndexVin_idempotent.
  - rewrite parseIndexTx_Vin. apply Forall_forall.
    intros vin Hin. apply in_map_iff in Hin.
    destruct Hin as [vin0 [<- _]]. apply parseIndexVin_Txid.
Qed.

(** C10: the normalizer leaves the outputs and every field of the
    transaction but the input list unchanged, keeps the number of inputs,
    and leaves the script data and the addresses of every input
    unchanged. *)
Theorem C10_normalizer_frame (tx : bchain.Tx.t) :
  let tx' := fst (parseIndexTx tx) in
  bchain.Tx.Vout tx' = bchain.Tx.Vout tx
  /\ bchain.Tx.Hex tx' = bchain.Tx.Hex tx
  /\ bchain.Tx.Txid tx' = bchain.Tx.Txid tx
  /\ bchain.Tx.Version tx' = bchain.Tx.Version tx
  /\ bchain.Tx.LockTime tx' = bchain.Tx.LockTime tx
  /\ bchain.Tx.Confirmations tx' = bchain.Tx.Confirmations tx
  /\ bchain.Tx.Time tx' = bchain.Tx.Time tx
  /\ bchain.Tx.Blocktime tx' = bchain.Tx.Blocktime tx
  /\ Forall2
       (fun vin vin' =>
          bchain.Vin.ScriptSig vin' = bchain.Vin.ScriptSig vin
          /\ bchain.Vin.Addresses vin' = bchain.Vin.Addresses vin)
       (bchain.Tx.Vin tx) (bchain.Tx.Vin tx').
Proof.
  simpl. repeat split.
  induction (bchain.Tx.Vin tx) as [|vin vins IH]; simpl; constructor.
  - unfold parseIndexVin.
    destruct (String.eqb (bchain.Vin.Txid vin) SpendTxID); simpl; auto.
  - exact IH.
Qed.


(** ** Reading from the stream *)

Lemma bind_Ok {A B : Type} (m : result A) (k : A -> result B) (b : B) :
  bind m k = Ok b -> exists a, m = Ok a /\ k a = Ok b.
Proof. destruct m; simpl; intros H; try discriminate. eauto. Qed.

Ltac bind_inv H :=
  let a := fresh "a" in
  let H1 := fresh H in
  apply bind_Ok in H; destruct H as [a [H1 H]].

Lemma ReadFull_Ok (r : Reader) (n : nat) (buf : list byte) (r' : Reader) :
  io.ReadFull r n = Ok (buf, r') -> r = buf ++ r' /\ List.length buf = n.
Proof.
  unfold io.ReadFull.
  destruct (n <=? List.length r)%nat eqn:E.
  - intros H. inversion H; subst. apply Nat.leb_le in E. split.
    + symmetry. apply firstn_skipn.
    + apply firstn_length_le. exact E.
  - destruct r; discriminate.
Qed.

Lemma ReadFull_app (buf x : list byte) :
  io.ReadFull (buf ++ x) (List.length buf) = Ok (buf, x).
Proof.
  unfold io.ReadFull. rewrite length_app.
  replace (List.length buf <=? List.length buf + List.length x)%nat with true
    by (symmetry; apply Nat.leb_le; lia).
  rewrite firstn_app, skipn_app, firstn_all, skipn_all, Nat.sub_diag.
  simpl. rewrite app_nil_r. reflexivity.
Qed.

Lemma ReadFull_short (r : Reader) (n : nat) :
  (List.length r < n)%nat ->
  io.ReadFull r n = Err io_EOF \/ io.ReadFull r n = Err io_ErrUnexpectedEOF.
Proof.
  intros H. unfold io.ReadFull.
  replace (n <=? List.length r)%nat with false
    by (symmetry; apply Nat.leb_gt; exact H).
  destruct r; auto.
Qed.

Lemma uint8_range (b : byte) : 0 <= wire.uint8 b < 256.
Proof.
  unfold wire.uint8. pose proof (Byte.to_N_bounded b). lia.
Qed.

Lemma littleEndian_range (bs : list byte) :
  0 <= wire.littleEndian bs < 256 ^ Z.of_nat (List.length bs).
Proof.
  induction bs as [|b bs IH].
  - simpl. lia.
  - cbn [wire.littleEndian List.length].
    rewrite Nat2Z.inj_succ, Z.pow_succ_r by lia.
    pose proof (uint8_range b). lia.
Qed.

(** The shape shared by binarySerializer.Uint16, Uint32 and Uint64. *)
Lemma fixed_Ok (n : nat) (r : Reader) (v : Z) (r' : Reader) :
  ('(buf, r0) <- io.ReadFull r n ;; Ok (wire.littleEndian buf, r0))
  = Ok (v, r') ->
  exists c, r = c ++ r' /\ List.length c = n /\ v = wire.littleEndian c.
Proof.
  intros H. bind_inv H. destruct a as [buf r0].
  inversion H; subst. apply ReadFull_Ok in H0. destruct H0 as [-> Hlen].
  exists buf. auto.
Qed.

Lemma fixed_app (c x : list byte) :
  ('(buf, r0) <- io.ReadFull (c ++ x) (List.length c) ;;
   Ok (wire.littleEndian buf, r0)) = Ok (wire.littleEndian c, x).
Proof. rewrite ReadFull_app. reflexivity. Qed.

Lemma Uint8_Ok (r : Reader) (b : byte) (r' : Reader) :
  wire.Uint8 r = Ok (b, r') -> r = b :: r'.
Proof.
  unfold wire.Uint8. intros H. bind_inv H. destruct a as [buf r0].
  inversion H; subst. apply ReadFull_Ok in H0. destruct H0 as [-> Hlen].
  destruct buf as [|b [|]]; try discriminate. reflexivity.
Qed.

Lemma Uint8_cons (b : byte) (x : list byte) : wire.Uint8 (b :: x) = Ok (b, x).
Proof. reflexivity. Qed.

Lemma Uint8_StreamDecoder : StreamDecoder wire.Uint8.
Proof.
  intros r b r' H. apply Uint8_Ok in H. subst.
  exists [b]. split; [reflexivity|]. intros x. apply Uint8_cons.
Qed.

Lemma fixed_app_n (n : nat) (c x : list byte) :
  List.length c = n ->
  ('(buf, r0) <- io.ReadFull (c ++ x) n ;; Ok (wire.littleEndian buf, r0))
  = Ok (wire.littleEndian c, x).
Proof. intros <-. apply fixed_app. Qed.

Lemma ReadVarInt_small (d : byte) (x : list byte) :
  wire.uint8 d < 0xfd -> wire.ReadVarInt (d :: x) = Ok (wire.uint8 d, x).
Proof.
  destruct d; try reflexivity; intros H; vm_compute in H; discriminate H.
Qed.

(** A value that follows a discriminant: [n] bytes, at least [min]. *)
Lemma ReadVarInt_wide (n : nat) (d : byte) (min : Z)
    (r0 : Reader) (v : Z) (r' : Reader) :
  ('(sv, r) <- ('(buf, r1) <- io.ReadFull r0 n ;;
                Ok (wire.littleEndian buf, r1)) ;;
   if sv <? min then Err (wire_ErrNonCanonicalVarInt sv d min) else Ok (sv, r))
  = Ok (v, r') ->
  exists c, r0 = c ++ r' /\ List.length c = n /\ v = wire.littleEndian c
            /\ min <= v.
Proof.
  intros H. bind_inv H. destruct a as [sv r1].
  apply fixed_Ok in H0. destruct H0 as [c [-> [Hlen ->]]].
  destruct (wire.littleEndian c <? min) eqn:E; try discriminate.
  inversion H; subst. apply Z.ltb_ge in E. exists c. auto.
Qed.

Lemma ReadVarInt_wide_app (n : nat) (d : byte) (min : Z) (c x : list byte) :
  List.length c = n -> min <= wire.littleEndian c ->
  ('(sv, r) <- ('(buf, r1) <- io.ReadFull (c ++ x) n ;;
                Ok (wire.littleEndian buf, r1)) ;;
   if sv <? min then Err (wire_ErrNonCanonicalVarInt sv d min) else Ok (sv, r))
  = Ok (wire.littleEndian c, x).
Proof.
  intros Hlen Hmin. rewrite (fixed_app_n n c x Hlen). simpl.
  replace (wire.littleEndian c <? min) with false
    by (symmetry; apply Z.ltb_ge; exact Hmin).
  reflexivity.
Qed.

(** [wire.ReadVarInt] reads the canonical form of its value from the front
    of the stream: [wire.VarIntSerializeSize] bytes. *)
Lemma ReadVarInt_Ok (r : Reader) (v : Z) (r' : Reader) :
  wire.ReadVarInt r = Ok (v, r') ->
  exists c,
    r = c ++ r'
    /\ Z.of_nat (List.length c) = wire.VarIntSerializeSize v
    /\ 0 <= v < 2 ^ 64
    /\ forall x, wire.ReadVarInt (c ++ x) = Ok (v, x).
Proof.
  intros H. unfold wire.ReadVarInt in H. bind_inv H. destruct a as [d r0].
  apply Uint8_Ok in H0. subst r.
  pose proof (uint8_range d) as Hd.
  destruct d;
    try (inversion H; subst v r0;
         match goal with
         | |- exists c, ?d :: _ = _ /\ _ => exists [d]
         end;
         split; [reflexivity|];
         split; [reflexivity|];
         split; [lia|];
         intros x; apply ReadVarInt_small; reflexivity).
  - apply (ReadVarInt_wide 2) in H. destruct H as [c [-> [Hlen [-> Hmin]]]].
    pose proof (littleEndian_range c) as Hr. rewrite Hlen in Hr.
    exists (xfd :: c). repeat split; try lia.
    + cbn [List.length]. rewrite Hlen. unfold wire.VarIntSerializeSize.
      destruct (wire.littleEndian c <? 253) eqn:E1;
        [apply Z.ltb_lt in E1; lia|].
      destruct (wire.littleEndian c <=? 65535) eqn:E2;
        [reflexivity | apply Z.leb_gt in E2; lia].
    + intros x. apply ReadVarInt_wide_app; assumption.
  - apply (ReadVarInt_wide 4) in H. destruct H as [c [-> [Hlen [-> Hmin]]]].
    pose proof (littleEndian_range c) as Hr. rewrite Hlen in Hr.
    exists (xfe :: c). repeat split; try lia.
    + cbn [List.length]. rewrite Hlen. unfold wire.VarIntSerializeSize.
      destruct (wire.littleEndian c <? 253) eqn:E1;
        [apply Z.ltb_lt in E1; lia|].
      destruct (wire.littleEndian c <=? 65535) eqn:E2;
        [apply Z.leb_le in E2; lia|].
      destruct (wire.littleEndian c <=? 4294967295) eqn:E3;
        [reflexivity | apply Z.leb_gt in E3; lia].
    + intros x. apply ReadVarInt_wide_app; assumption.
  - apply (ReadVarInt_wide 8) in H. destruct H as [c [-> [Hlen [-> Hmin]]]].
    pose proof (littleEndian_range c) as Hr. rewrite Hlen in Hr.
    exists (xff :: c). repeat split; try lia.
    + cbn [List.length]. rewrite Hlen. unfold wire.VarIntSerializeSize.
      destruct (wire.littleEndian c <? 253) eqn:E1;
        [apply Z.ltb_lt in E1; lia|].
      destruct (wire.littleEndian c <=? 65535) eqn:E2;
        [apply Z.leb_le in E2; lia|].
      destruct (wire.littleEndian c <=? 4294967295) eqn:E3;
        [apply Z.leb_le in E3; lia | reflexivity].
    + intros x. apply ReadVarInt_wide_app; assumption.
Qed.

Lemma ReadFull_app_n (n : nat) (buf x : list byte) :
  List.length buf = n -> io.ReadFull (buf ++ x) n = Ok (buf, x).
Proof. intros <-. apply ReadFull_app. Qed.

Lemma Deserialize_app (c1 c2 c3 c4 c5 c6 x : list byte) :
  List.length c1 = 4%nat -> List.length c2 = 32%nat ->
  List.length c3 = 32%nat -> List.length c4 = 4%nat ->
  List.length c5 = 4%nat -> List.length c6 = 4%nat ->
  wire.BlockHeader.Deserialize ((c1 ++ c2 ++ c3 ++ c4 ++ c5 ++ c6) ++ x)
  = Ok (wire.BlockHeader.mk (wire.int32 (wire.littleEndian c1)) c2 c3
          (wire.littleEndian c4) (wire.littleEndian c5) (wire.littleEndian c6),
        x).
Proof.
  intros L1 L2 L3 L4 L5 L6.
  unfold wire.BlockHeader.Deserialize, wire.Uint32.
  rewrite <- !app_assoc.
  rewrite (fixed_app_n 4 c1 _ L1). cbn [bind].
  rewrite (ReadFull_app_n 32 c2 _ L2). cbn [bind].
  rewrite (ReadFull_app_n 32 c3 _ L3). cbn [bind].
  rewrite (fixed_app_n 4 c4 _ L4). cbn [bind].
  rewrite (fixed_app_n 4 c5 _ L5). cbn [bind].
  rewrite (fixed_app_n 4 c6 _ L6). cbn [bind].
  reflexivity.
Qed.

(** [Deserialize] reads 80 bytes from the front of the stream. *)
Lemma Deserialize_Ok (r : Reader) (h : wire.BlockHeader.t) (r' : Reader) :
  wire.BlockHeader.Deserialize r = Ok (h, r') ->
  exists c,
    r = c ++ r' /\ List.length c = 80%nat
    /\ forall x, wire.BlockHeader.Deserialize (c ++ x) = Ok (h, x).
Proof.
  intros H. unfold wire.BlockHeader.Deserialize, wire.Uint32 in H.
  bind_inv H. destruct a as [version r1].
  apply fixed_Ok in H0. destruct H0 as [c1 [-> [L1 ->]]].
  bind_inv H. destruct a as [c2 r2].
  apply ReadFull_Ok in H0. destruct H0 as [-> L2].
  bind_inv H. destruct a as [c3 r3].
  apply ReadFull_Ok in H0. destruct H0 as [-> L3].
  bind_inv H. destruct a as [sec r4].
  apply fixed_Ok in H0. destruct H0 as [c4 [-> [L4 ->]]].
  bind_inv H. destruct a as [bits r5].
  apply fixed_Ok in H0. destruct H0 as [c5 [-> [L5 ->]]].
  bind_inv H. destruct a as [nonce r6].
  apply fixed_Ok in H0. destruct H0 as [c6 [-> [L6 ->]]].
  inversion H; subst.
  exists (c1 ++ c2 ++ c3 ++ c4 ++ c5 ++ c6). split; [|split].
  - rewrite <- !app_assoc. reflexivity.
  - rewrite !length_app. lia.
  - intros x. apply Deserialize_app; assumption.
Qed.

(** Any 80 bytes are a header. *)
Lemma Deserialize_total (c : list byte) :
  List.length c = 80%nat ->
  exists h, forall x, wire.BlockHeader.Deserialize (c ++ x) = Ok (h, x).
Proof.
  intros Hlen.
  pose (c1 := firstn 4 c). pose (t1 := skipn 4 c).
  pose (c2 := firstn 32 t1). pose (t2 := skipn 32 t1).
  pose (c3 := firstn 32 t2). pose (t3 := skipn 32 t2).
  pose (c4 := firstn 4 t3). pose (t4 := skipn 4 t3).
  pose (c5 := firstn 4 t4). pose (c6 := skipn 4 t4).
  assert (Hc : c = c1 ++ c2 ++ c3 ++ c4 ++ c5 ++ c6).
  { subst c1 c2 c3 c4 c5 c6 t1 t2 t3 t4.
    rewrite !firstn_skipn. reflexivity. }
  assert (Ht1 : List.length t1 = 76%nat)
    by (subst t1; rewrite length_skipn; lia).
  assert (Ht2 : List.length t2 = 44%nat)
    by (subst t2; rewrite length_skipn; lia).
  assert (Ht3 : List.length t3 = 12%nat)
    by (subst t3; rewrite length_skipn; lia).
  assert (Ht4 : List.length t4 = 8%nat)
    by (subst t4; rewrite length_skipn; lia).
  eexists. intros x. rewrite Hc. apply Deserialize_app.
  - subst c1. rewrite length_firstn. lia.
  - subst c2. rewrite length_firstn. lia.
  - subst c3. rewrite length_firstn. lia.
  - subst c4. rewrite length_firstn. lia.
  - subst c5. rewrite length_firstn. lia.
  - subst c6. rewrite length_skipn. lia.
Qed.

(** ** The header decoder *)

Lemma makeslice_Ok {T : Type} (elemsize : Z) (zero : T) (len : Z) :
  allocatable elemsize len ->
  runtime.makeslice maxAlloc elemsize zero len
  = Ok (repeat zero (Z.to_nat len)).
Proof.
  intros [H1 H2]. unfold runtime.makeslice.
  apply Z.ltb_lt in H1. apply Z.leb_le in H2. rewrite H1, H2. reflexivity.
Qed.

Lemma makeslice_inv {T : Type} (elemsize : Z) (zero : T) (len : Z)
    (s : list T) :
  runtime.makeslice maxAlloc elemsize zero len = Ok s ->
  allocatable elemsize len /\ s = repeat zero (Z.to_nat len).
Proof.
  unfold runtime.makeslice, allocatable.
  destruct (len <? 2 ^ 63) eqn:E1; simpl; try discriminate.
  destruct (elemsize * len <=? maxAlloc) eqn:E2; try discriminate.
  intros H. inversion H. apply Z.ltb_lt in E1. apply Z.leb_le in E2. auto.
Qed.

Lemma makeslice_Panic {T : Type} (elemsize : Z) (zero : T) (len : Z) :
  ~ allocatable elemsize len ->
  runtime.makeslice maxAlloc elemsize zero len
  = Panic "runtime error: makeslice: len out of range".
Proof.
  intros H. unfold runtime.makeslice.
  destruct (len <? 2 ^ 63) eqn:E1; simpl; try reflexivity.
  destruct (elemsize * len <=? maxAlloc) eqn:E2; try reflexivity.
  exfalso. apply H. apply Z.ltb_lt in E1. apply Z.leb_le in E2.
  split; assumption.
Qed.

Lemma parseBlockHeader_Deserialize_Err (r : Reader) (e : error) :
  wire.BlockHeader.Deserialize r = Err e -> parseBlockHeader r = Err e.
Proof. intros H. unfold parseBlockHeader. rewrite H. reflexivity. Qed.

(** A nonzero nonce: the header is all that is read. *)
Lemma parseBlockHeader_pow (r : Reader) (h : wire.BlockHeader.t) (r1 : Reader) :
  wire.BlockHeader.Deserialize r = Ok (h, r1) ->
  wire.BlockHeader.Nonce h <> 0 ->
  parseBlockHeader r = Ok (h, r1).
Proof.
  intros H Hnonce. unfold parseBlockHeader. rewrite H. cbn [bind].
  apply Z.eqb_neq in Hnonce. rewrite Hnonce. reflexivity.
Qed.

Lemma parseBlockHeader_ReadVarInt_Err
    (r : Reader) (h : wire.BlockHeader.t) (r1 : Reader) (e : error) :
  wire.BlockHeader.Deserialize r = Ok (h, r1) ->
  wire.BlockHeader.Nonce h = 0 ->
  wire.ReadVarInt r1 = Err e ->
  parseBlockHeader r = Err e.
Proof.
  intros H Hnonce Hvar. unfold parseBlockHeader. rewrite H. cbn [bind].
  rewrite Hnonce. cbn [Z.eqb]. rewrite Hvar. reflexivity.
Qed.

(** A zero nonce and a trailer that is there: the length and the trailer
    are read. *)
Lemma parseBlockHeader_pos
    (r : Reader) (h : wire.BlockHeader.t) (r1 : Reader)
    (sigLength : Z) (sig r3 : list byte) :
  wire.BlockHeader.Deserialize r = Ok (h, r1) ->
  wire.BlockHeader.Nonce h = 0 ->
  wire.ReadVarInt r1 = Ok (sigLength, sig ++ r3) ->
  Z.of_nat (List.length sig) = sigLength ->
  allocatable 1 sigLength ->
  parseBlockHeader r = Ok (h, r3).
Proof.
  intros H Hnonce Hvar Hlen Halloc. unfold parseBlockHeader.
  rewrite H. cbn [bind]. rewrite Hnonce. cbn [Z.eqb].
  rewrite Hvar. cbn [bind]. rewrite (makeslice_Ok _ x00 _ Halloc). cbn [bind].
  rewrite repeat_length, <- Hlen, Nat2Z.id, ReadFull_app. reflexivity.
Qed.

(** A zero nonce and a trailer cut short: a decode error. *)
Lemma parseBlockHeader_truncated
    (r : Reader) (h : wire.BlockHeader.t) (r1 : Reader)
    (sigLength : Z) (r2 : Reader) :
  wire.BlockHeader.Deserialize r = Ok (h, r1) ->
  wire.BlockHeader.Nonce h = 0 ->
  wire.ReadVarInt r1 = Ok (sigLength, r2) ->
  allocatable 1 sigLength ->
  Z.of_nat (List.length r2) < sigLength ->
  parseBlockHeader r = Err io_EOF
  \/ parseBlockHeader r = Err io_ErrUnexpectedEOF.
Proof.
  intros H Hnonce Hvar Halloc Hshort. unfold parseBlockHeader.
  rewrite H. cbn [bind]. rewrite Hnonce. cbn [Z.eqb].
  rewrite Hvar. cbn [bind]. rewrite (makeslice_Ok _ x00 _ Halloc). cbn [bind].
  rewrite repeat_length.
  destruct (ReadFull_short r2 (Z.to_nat sigLength)) as [E|E];
    [lia | rewrite E; auto | rewrite E; auto].
Qed.

(** A zero nonce and a trailer length that [make] refuses: a panic. *)
Lemma parseBlockHeader_oversized
    (r : Reader) (h : wire.BlockHeader.t) (r1 : Reader)
    (sigLength : Z) (r2 : Reader) :
  wire.BlockHeader.Deserialize r = Ok (h, r1) ->
  wire.BlockHeader.Nonce h = 0 ->
  wire.ReadVarInt r1 = Ok (sigLength, r2) ->
  ~ allocatable 1 sigLength ->
  parseBlockHeader r
  = Panic "runtime error: makeslice: len out of range".
Proof.
  intros H Hnonce Hvar Halloc. unfold parseBlockHeader.
  rewrite H. cbn [bind]. rewrite Hnonce. cbn [Z.eqb].
  rewrite Hvar. cbn [bind]. rewrite (makeslice_Panic _ x00 _ Halloc).
  reflexivity.
Qed.

(** Every successful header decode: what was read is the 80 header bytes
    when the nonce is not zero, and the header, the compact-size length and
    the trailer when it is; nothing of what follows is looked at. *)
Lemma parseBlockHeader_Ok (r : Reader) (h : wire.BlockHeader.t) (r' : Reader) :
  parseBlockHeader r = Ok (h, r') ->
  exists c,
    r = c ++ r'
    /\ (forall x, parseBlockHeader (c ++ x) = Ok (h, x))
    /\ ((wire.BlockHeader.Nonce h <> 0 /\ List.length c = 80%nat)
        \/ (wire.BlockHeader.Nonce h = 0
            /\ exists sigLength,
                 allocatable 1 sigLength /\ 0 <= sigLength
                 /\ Z.of_nat (List.length c)
                    = 80 + wire.VarIntSerializeSize sigLength + sigLength)).
Proof.
  intros H. unfold parseBlockHeader in H.
  bind_inv H. destruct a as [h0 r1].
  destruct (Deserialize_Ok _ _ _ H0) as [c0 [-> [Hlen0 Happ0]]].
  destruct (wire.BlockHeader.Nonce h0 =? 0) eqn:Hnonce.
  - apply Z.eqb_eq in Hnonce.
    bind_inv H. destruct a as [sigLength r2].
    destruct (ReadVarInt_Ok _ _ _ H1) as [c1 [-> [Hlen1 [Hrange Happ1]]]].
    bind_inv H. destruct (makeslice_inv _ _ _ _ H2) as [Halloc ->].
    bind_inv H. destruct a as [buf r3].
    apply ReadFull_Ok in H3. destruct H3 as [-> Hlen2].
    rewrite repeat_length in Hlen2.
    inversion H; subst h0 r3.
    exists (c0 ++ c1 ++ buf). split; [|split].
    + rewrite <- !app_assoc. reflexivity.
    + intros x. rewrite <- !app_assoc.
      apply (parseBlockHeader_pos _ h (c1 ++ buf ++ x) sigLength buf x);
        auto. lia.
    + right. split; [exact Hnonce|]. exists sigLength.
      split; [exact Halloc|]. split; [lia|].
      rewrite !length_app. lia.
  - apply Z.eqb_neq in Hnonce. inversion H; subst h0 r1.
    exists c0. split; [reflexivity|]. split.
    + intros x. apply parseBlockHeader_pow; auto.
    + left. auto.
Qed.

(** The header decoder on every stream whose trailer length the runtime can
    allocate: 80 bytes are read when the nonce is not zero; when it is zero,
    the compact-size length and that many trailer bytes are read as well, and
    an unreadable length or a trailer cut short is a decode error. *)
Lemma parseBlockHeader_within_limit
    (r : Reader) (h : wire.BlockHeader.t) (r1 : Reader) :
  wire.BlockHeader.Deserialize r = Ok (h, r1) ->
  List.length r = (80 + List.length r1)%nat
  /\ (wire.BlockHeader.Nonce h <> 0 -> parseBlockHeader r = Ok (h, r1))
  /\ (wire.BlockHeader.Nonce h = 0 ->
      (forall e, wire.ReadVarInt r1 = Err e -> parseBlockHeader r = Err e)
      /\ (forall sigLength r2,
             wire.ReadVarInt r1 = Ok (sigLength, r2) ->
             allocatable 1 sigLength ->
             Z.of_nat (List.length r1)
             = wire.VarIntSerializeSize sigLength + Z.of_nat (List.length r2)
             /\ (sigLength <= Z.of_nat (List.length r2) ->
                 parseBlockHeader r = Ok (h, skipn (Z.to_nat sigLength) r2)
                 /\ Z.of_nat (List.length (skipn (Z.to_nat sigLength) r2))
                    = Z.of_nat (List.length r2) - sigLength)
             /\ (Z.of_nat (List.length r2) < sigLength ->
                 parseBlockHeader r = Err io_EOF
                 \/ parseBlockHeader r = Err io_ErrUnexpectedEOF))).
Proof.
  intros H. split; [|split].
  - destruct (Deserialize_Ok _ _ _ H) as [c [-> [Hlen _]]].
    rewrite length_app, Hlen. reflexivity.
  - apply parseBlockHeader_pow. exact H.
  - intros Hnonce. split.
    + intros e. apply (parseBlockHeader_ReadVarInt_Err _ _ _ _ H Hnonce).
    + intros sigLength r2 Hvar Halloc.
      destruct (ReadVarInt_Ok _ _ _ Hvar) as [c [Hc [Hsize [Hrange _]]]].
      split; [|split].
      * rewrite Hc, length_app. lia.
      * intros Hfits. split.
        -- apply (parseBlockHeader_pos _ _ _ sigLength
                    (firstn (Z.to_nat sigLength) r2)
                    (skipn (Z.to_nat sigLength) r2) H Hnonce).
           ++ rewrite firstn_skipn. exact Hvar.
           ++ rewrite firstn_length_le; lia.
           ++ exact Halloc.
        -- rewrite length_skipn. lia.
      * apply (parseBlockHeader_truncated _ _ _ _ _ H Hnonce Hvar Halloc).
Qed.

(** ** The block assembler *)

Lemma setindex_app {T : Type} (done pending : list T) (x y : T) :
  runtime.setindex (done ++ y :: pending) (List.length done) x
  = Ok (done ++ x :: pending).
Proof.
  induction done as [|z done IH]; simpl.
  - reflexivity.
  - rewrite IH. reflexivity.
Qed.

Lemma snoc_app {T : Type} (done : list T) (x : T) (pending : list T) :
  done ++ x :: pending = (done ++ [x]) ++ pending.
Proof. rewrite <- app_assoc. reflexivity. Qed.

Lemma length_snoc {T : Type} (done : list T) (x : T) :
  List.length (done ++ [x]) = S (List.length done).
Proof. rewrite length_app. simpl. lia. Qed.

Lemma ParseBlock_loop_step
    (n i : nat) (txs : list bchain.Tx.t) (r : Reader)
    (tx : MsgTx) (r1 : Reader) :
  BtcDecode r = Ok (tx, r1) ->
  ParseBlock_loop (S n) i txs r
  = (txs' <- runtime.setindex txs i (normalized tx) ;;
     ParseBlock_loop n (S i) txs' r1).
Proof. intros H. cbn [ParseBlock_loop]. rewrite H. reflexivity. Qed.

(** The loop stores the normalized transactions in stream order. *)
Lemma ParseBlock_loop_Decodes (r : Reader) (msgs : list MsgTx) (r' : Reader) :
  Decodes r msgs r' ->
  forall done pending : list bchain.Tx.t,
    List.length pending = List.length msgs ->
    ParseBlock_loop (List.length msgs) (List.length done) (done ++ pending) r
    = Ok (done ++ map normalized msgs, r').
Proof.
  induction 1 as [r|r tx r1 txs r' Hdec _ IH]; intros done pending Hlen.
  - destruct pending; [|discriminate]. reflexivity.
  - destruct pending as [|y pending]; [discriminate|].
    cbn [List.length]. rewrite (ParseBlock_loop_step _ _ _ _ _ _ Hdec).
    rewrite setindex_app. cbn [bind].
    rewrite snoc_app, <- (length_snoc done (normalized tx)). rewrite IH.
    + rewrite <- app_assoc. reflexivity.
    + simpl in Hlen. lia.
Qed.

Lemma ParseBlock_loop_Ok (n : nat) :
  forall (done pending : list bchain.Tx.t) (r : Reader)
         (txs' : list bchain.Tx.t) (r' : Reader),
    List.length pending = n ->
    ParseBlock_loop n (List.length done) (done ++ pending) r = Ok (txs', r') ->
    exists msgs,
      Decodes r msgs r' /\ List.length msgs = n
      /\ txs' = done ++ map normalized msgs.
Proof.
  induction n as [|n IH]; intros done pending r txs' r' Hlen H.
  - destruct pending; [|discriminate]. simpl in H. inversion H; subst.
    exists []. split; [constructor|]. split; reflexivity.
  - destruct pending as [|y pending]; [discriminate|].
    destruct (BtcDecode r) as [[tx r1]| |] eqn:Hdec0;
      [|cbn [ParseBlock_loop] in H; rewrite Hdec0 in H; discriminate H ..].
    rewrite (ParseBlock_loop_step _ _ _ _ _ _ Hdec0) in H.
    rewrite setindex_app in H. cbn [bind] in H.
    rewrite snoc_app, <- (length_snoc done (normalized tx)) in H.
    apply IH in H; [|simpl in Hlen; lia].
    destruct H as [msgs [Hdec [Hn ->]]].
    exists (tx :: msgs). split; [|split].
    + econstructor; eassumption.
    + simpl. lia.
    + rewrite <- app_assoc. reflexivity.
Qed.

(** The first transaction that fails to decode ends the loop with its
    error. *)
Lemma ParseBlock_loop_Err
    (r : Reader) (msgs : list MsgTx) (r1 : Reader) (e : error) :
  Decodes r msgs r1 ->
  BtcDecode r1 = Err e ->
  forall (n : nat) (done pending : list bchain.Tx.t),
    (List.length msgs < n)%nat ->
    List.length pending = n ->
    ParseBlock_loop n (List.length done) (done ++ pending) r = Err e.
Proof.
  induction 1 as [r|r tx r1 txs r' Hdec _ IH];
    intros Herr n done pending Hlt Hlen.
  - destruct n as [|n]; [simpl in Hlt; lia|].
    cbn [ParseBlock_loop]. rewrite Herr. reflexivity.
  - destruct n as [|n]; [simpl in Hlt; lia|].
    destruct pending as [|y pending]; [discriminate|].
    rewrite (ParseBlock_loop_step _ _ _ _ _ _ Hdec).
    rewrite setindex_app. cbn [bind].
    rewrite snoc_app, <- (length_snoc done (normalized tx)).
    apply IH; simpl in *; auto; lia.
Qed.

(** The loop on the fresh slice of [ParseBlock]. *)
Lemma ParseBlock_loop_fresh (r : Reader) (msgs : list MsgTx) (r' : Reader) :
  Decodes r msgs r' ->
  ParseBlock_loop (List.length msgs) 0
    (repeat bchain.Tx.zero (List.length msgs)) r
  = Ok (map normalized msgs, r').
Proof.
  intros Hdec.
  exact (ParseBlock_loop_Decodes r msgs r' Hdec []
           (repeat bchain.Tx.zero (List.length msgs))
           (repeat_length _ _)).
Qed.

Lemma ParseBlock_loop_fresh_Ok
    (n : nat) (r : Reader) (txs' : list bchain.Tx.t) (r' : Reader) :
  ParseBlock_loop n 0 (repeat bchain.Tx.zero n) r = Ok (txs', r') ->
  exists msgs,
    Decodes r msgs r' /\ List.length msgs = n /\ txs' = map normalized msgs.
Proof.
  intros H.
  exact (ParseBlock_loop_Ok n [] (repeat bchain.Tx.zero n) r txs' r'
           (repeat_length _ _) H).
Qed.

Lemma ParseBlock_loop_fresh_Err
    (n : nat) (r : Reader) (msgs : list MsgTx) (r1 : Reader) (e : error) :
  Decodes r msgs r1 ->
  BtcDecode r1 = Err e ->
  (List.length msgs < n)%nat ->
  ParseBlock_loop n 0 (repeat bchain.Tx.zero n) r = Err e.
Proof.
  intros Hdec Herr Hlt.
  exact (ParseBlock_loop_Err r msgs r1 e Hdec Herr n []
           (repeat bchain.Tx.zero n) Hlt (repeat_length _ _)).
Qed.

(** The block of a buffer [b] whose header is [header] and whose
    transactions are [msgs]. *)
Lemma ParseBlock_reader_Ok
    (b : list byte) (header : wire.BlockHeader.t) (r1 : Reader)
    (ntx : Z) (r2 : Reader) (msgs : list MsgTx) (rest : Reader) :
  parseBlockHeader b = Ok (header, r1) ->
  wire.ReadVarInt r1 = Ok (ntx, r2) ->
  allocatable sizeofTx ntx ->
  Decodes r2 msgs rest ->
  Z.of_nat (List.length msgs) = ntx ->
  ParseBlock_reader b
  = Ok (bchain.Block.mk
          (bchain.BlockHeader.mk EmptyString EmptyString EmptyString
             0 0 (Z.of_nat (List.length b))
             (wire.BlockHeader.Timestamp header))
          (map normalized msgs),
        rest).
Proof.
  intros Hh Hn Halloc Hdec Hlen. unfold ParseBlock_reader.
  rewrite Hh. cbn [bind]. rewrite Hn. cbn [bind].
  rewrite (makeslice_Ok _ bchain.Tx.zero _ Halloc). cbn [bind].
  rewrite <- Hlen, Nat2Z.id.
  rewrite (ParseBlock_loop_fresh _ _ _ Hdec). reflexivity.
Qed.

Lemma ParseBlock_reader_Ok_inv
    (b : list byte) (block : bchain.Block.t) (rest : Reader) :
  ParseBlock_reader b = Ok (block, rest) ->
  exists header r1 ntx r2 msgs,
    parseBlockHeader b = Ok (header, r1)
    /\ wire.ReadVarInt r1 = Ok (ntx, r2)
    /\ allocatable sizeofTx ntx
    /\ Decodes r2 msgs rest
    /\ Z.of_nat (List.length msgs) = ntx
    /\ block = bchain.Block.mk
                 (bchain.BlockHeader.mk EmptyString EmptyString EmptyString
                    0 0 (Z.of_nat (List.length b))
                    (wire.BlockHeader.Timestamp header))
                 (map normalized msgs).
Proof.
  intros H. unfold ParseBlock_reader in H.
  bind_inv H. destruct a as [header r1].
  bind_inv H. destruct a as [ntx r2].
  bind_inv H. destruct (makeslice_inv _ _ _ _ H2) as [Halloc ->].
  bind_inv H. destruct a as [txs r3].
  apply ParseBlock_loop_fresh_Ok in H3.
  destruct H3 as [msgs [Hdec [Hlen ->]]].
  inversion H; subst.
  destruct (ReadVarInt_Ok _ _ _ H1) as [_ [_ [_ [Hrange _]]]].
  exists header, r1, ntx, r2, msgs.
  repeat (split; [assumption|]). split; [lia|]. reflexivity.
Qed.

Lemma ParseBlock_of_reader (b : list byte) (block : bchain.Block.t) :
  ParseBlock b = Ok block
  <-> exists rest, ParseBlock_reader b = Ok (block, rest).
Proof.
  unfold ParseBlock. split.
  - intros H. bind_inv H. destruct a as [block0 rest].
    inversion H; subst. eauto.
  - intros [rest ->]. reflexivity.
Qed.

Lemma Decodes_stream (r : Reader) (msgs : list MsgTx) (r' : Reader) :
  StreamDecoder BtcDecode ->
  Decodes r msgs r' ->
  exists c, r = c ++ r' /\ forall x, Decodes (c ++ x) msgs x.
Proof.
  intros Hstream. induction 1 as [r|r tx r1 txs r' Hdec _ IH].
  - exists []. split; [reflexivity|]. intros x. constructor.
  - destruct (Hstream _ _ _ Hdec) as [c0 [-> Happ0]].
    destruct IH as [c1 [-> Happ1]].
    exists (c0 ++ c1). split.
    + rewrite <- app_assoc. reflexivity.
    + intros x. rewrite <- app_assoc.
      econstructor; [apply Happ0 | apply Happ1].
Qed.

(** ** The address resolver *)

(** C3: a descriptor whose first byte is 0xC1, 0xC2, 0xC3 or 0xC4 resolves to
    the one label Zeromint, Zerospend, Sigmamint or Sigmaspend, not
    searchable and without error, whatever bytes follow, and the generic
    resolver is not called; the empty descriptor and every other first byte
    give what the generic resolver returns, which is called once on the
    descriptor. *)
Theorem C3_reserved_opcodes_resolve_to_labels
    (op : byte) (rest : list byte) :
  (op = xc1 ->
   GetAddressesFromAddrDesc (op :: rest)
   = ((["Zeromint"], false, None), []))
  /\ (op = xc2 ->
      GetAddressesFromAddrDesc (op :: rest)
      = ((["Zerospend"], false, None), []))
  /\ (op = xc3 ->
      GetAddressesFromAddrDesc (op :: rest)
      = ((["Sigmamint"], false, None), []))
  /\ (op = xc4 ->
      GetAddressesFromAddrDesc (op :: rest)
      = ((["Sigmaspend"], false, None), []))
  /\ (op <> xc1 -> op <> xc2 -> op <> xc3 -> op <> xc4 ->
      GetAddressesFromAddrDesc (op :: rest)
      = (OutputScriptToAddressesFunc p (op :: rest), [op :: rest]))
  /\ GetAddressesFromAddrDesc []
     = (OutputScriptToAddressesFunc p [], [[]]).
Proof.
  repeat split; try (intros ->; reflexivity).
  intros H1 H2 H3 H4.
  destruct op; try reflexivity; congruence.
Qed.

(** ** The header decoder and the block assembler on a stream *)

(** C4, at the failing input: after a header with nonce 0, the compact-size
    length 0xffffffffffffffff is read, fewer bytes than that remain, and the
    call panics in [make] where the specification has a decode error; so does
    [ParseBlock] on the same buffer. *)
Theorem C4_oversized_trailer_length_panics :
  wire.ReadVarInt (repeat xff 9) = Ok (2 ^ 64 - 1, [])
  /\ parseBlockHeader (Fixture.header [x00; x00; x00; x00] ++ repeat xff 9)
     = Panic "runtime error: makeslice: len out of range"
  /\ ParseBlock (Fixture.header [x00; x00; x00; x00] ++ repeat xff 9)
     = Panic "runtime error: makeslice: len out of range".
Proof. repeat split; reflexivity. Qed.

(** C5: a block that decodes holds as many transactions as the count
    declares, in stream order, each converted and normalized; its size is
    the length of the buffer and its time the header's time.  A header with
    nonce 0, the trailer length 3, three trailer bytes and the count 0 give
    a block without transactions, of size 85, with the header's time. *)
Theorem C5_block_assembly :
  (forall (b : list byte) (block : bchain.Block.t),
      ParseBlock b = Ok block ->
      exists header r1 ntx r2 msgs rest,
        parseBlockHeader b = Ok (header, r1)
        /\ wire.ReadVarInt r1 = Ok (ntx, r2)
        /\ Decodes r2 msgs rest
        /\ Z.of_nat (List.length (bchain.Block.Txs block)) = ntx
        /\ bchain.Block.Txs block
           = map (fun tx => fst (parseIndexTx (TxFromMsgTx p tx false))) msgs
        /\ bchain.BlockHeader.Size (bchain.Block.BlockHeader block)
           = Z.of_nat (List.length b)
        /\ bchain.BlockHeader.Time (bchain.Block.BlockHeader block)
           = wire.BlockHeader.Unix (wire.BlockHeader.Timestamp header))
  /\ (forall (hdr : list byte) (h : wire.BlockHeader.t) (t1 t2 t3 : byte),
         wire.BlockHeader.Deserialize hdr = Ok (h, []) ->
         wire.BlockHeader.Nonce h = 0 ->
         3 <= maxAlloc ->
         ParseBlock (hdr ++ [x03; t1; t2; t3] ++ [x00])
         = Ok (bchain.Block.mk
                 (bchain.BlockHeader.mk EmptyString EmptyString EmptyString
                    0 0 85
                    (wire.BlockHeader.Timestamp h))
                 [])).
Proof.
  split.
  - intros b block H. apply ParseBlock_of_reader in H. destruct H as [rest H].
    apply ParseBlock_reader_Ok_inv in H.
    destruct H
      as [header [r1 [ntx [r2 [msgs [Hh [Hn [_ [Hdec [Hlen ->]]]]]]]]]].
    exists header, r1, ntx, r2, msgs, rest. simpl.
    rewrite length_map. repeat split; assumption.
  - intros hdr h t1 t2 t3 Hh Hnonce Hmax.
    destruct (Deserialize_Ok _ _ _ Hh) as [c [Hc [Hlen Happ]]].
    rewrite app_nil_r in Hc. subst c.
    apply ParseBlock_of_reader. exists [].
    rewrite (ParseBlock_reader_Ok _ h [x00] 0 [] [] []).
    + rewrite !length_app, Hlen. reflexivity.
    + apply (parseBlockHeader_pos _ h ([x03; t1; t2; t3] ++ [x00]) 3
               [t1; t2; t3] [x00]).
      * apply Happ.
      * exact Hnonce.
      * reflexivity.
      * reflexivity.
      * split; lia.
    + reflexivity.
    + split; lia.
    + constructor.
    + reflexivity.
Qed.

(** C6, as amended: a block decode call returns a result or fails; a
    successful decode has read the header, the count and the declared
    transactions from the front of the buffer and accepts any bytes left
    over: with a transaction decoder that reads from the front of the
    stream, bytes appended to a buffer that decodes change nothing but the
    size of the block. *)
Theorem C6_trailing_bytes_are_ignored :
  StreamDecoder BtcDecode ->
  forall (b : list byte) (block : bchain.Block.t) (rest : Reader),
    ParseBlock_reader b = Ok (block, rest) ->
    ParseBlock b = Ok block
    /\ (exists consumed, b = consumed ++ rest)
    /\ forall x : list byte,
         ParseBlock_reader (b ++ x)
         = Ok (bchain.Block.mk
                 (bchain.BlockHeader.mk EmptyString EmptyString EmptyString 0 0
                    (Z.of_nat (List.length b) + Z.of_nat (List.length x))
                    (bchain.BlockHeader.Time (bchain.Block.BlockHeader block)))
                 (bchain.Block.Txs block),
               rest ++ x).
Proof.
  intros Hstream b block rest H.
  split; [apply ParseBlock_of_reader; exists rest; exact H|].
  apply ParseBlock_reader_Ok_inv in H.
  destruct H
    as [header [r1 [ntx [r2 [msgs [Hh [Hn [Halloc [Hdec [Hlen ->]]]]]]]]]].
  destruct (parseBlockHeader_Ok _ _ _ Hh) as [c0 [-> [Happ0 _]]].
  destruct (ReadVarInt_Ok _ _ _ Hn) as [c1 [-> [_ [_ Happ1]]]].
  destruct (Decodes_stream _ _ _ Hstream Hdec) as [c2 [-> Happ2]].
  split.
  - exists (c0 ++ c1 ++ c2). rewrite <- !app_assoc. reflexivity.
  - intros x. simpl.
    rewrite (ParseBlock_reader_Ok _ header (c1 ++ c2 ++ rest ++ x) ntx
               (c2 ++ rest ++ x) msgs (rest ++ x)).
    + rewrite length_app, Nat2Z.inj_add. reflexivity.
    + rewrite <- !app_assoc. apply Happ0.
    + apply Happ1.
    + exact Halloc.
    + apply Happ2.
    + exact Hlen.
Qed.

(** Within the allocation limit of the runtime: an error of the header
    decoder, of the transaction count or of a transaction decode is the
    error of the block decode, and a block is returned only when the header,
    the count and every declared transaction have decoded. *)
Lemma ParseBlock_propagates_errors (b : list byte) (e : error) :
  (parseBlockHeader b = Err e -> ParseBlock b = Err e)
  /\ (forall header r1,
         parseBlockHeader b = Ok (header, r1) ->
         wire.ReadVarInt r1 = Err e ->
         ParseBlock b = Err e)
  /\ (forall header r1 ntx r2 msgs r3,
         parseBlockHeader b = Ok (header, r1) ->
         wire.ReadVarInt r1 = Ok (ntx, r2) ->
         allocatable sizeofTx ntx ->
         Decodes r2 msgs r3 ->
         Z.of_nat (List.length msgs) < ntx ->
         BtcDecode r3 = Err e ->
         ParseBlock b = Err e)
  /\ (forall block,
         ParseBlock b = Ok block ->
         exists header r1 ntx r2 msgs rest,
           parseBlockHeader b = Ok (header, r1)
           /\ wire.ReadVarInt r1 = Ok (ntx, r2)
           /\ Decodes r2 msgs rest
           /\ Z.of_nat (List.length msgs) = ntx).
Proof.
  split; [|split; [|split]].
  - intros H. unfold ParseBlock, ParseBlock_reader. rewrite H. reflexivity.
  - intros header r1 Hh Hn.
    unfold ParseBlock, ParseBlock_reader. rewrite Hh. cbn [bind].
    rewrite Hn. reflexivity.
  - intros header r1 ntx r2 msgs r3 Hh Hn Halloc Hdec Hlt Herr.
    unfold ParseBlock, ParseBlock_reader. rewrite Hh. cbn [bind].
    rewrite Hn. cbn [bind].
    rewrite (makeslice_Ok _ bchain.Tx.zero _ Halloc). cbn [bind].
    rewrite (ParseBlock_loop_fresh_Err _ _ msgs r3 e Hdec Herr); [reflexivity|].
    lia.
  - intros block H. apply ParseBlock_of_reader in H. destruct H as [rest H].
    apply ParseBlock_reader_Ok_inv in H.
    destruct H as [header [r1 [ntx [r2 [msgs [Hh [Hn [_ [Hdec [Hlen _]]]]]]]]]].
    exists header, r1, ntx, r2, msgs, rest. auto.
Qed.

(** C8, at the failing inputs: on a header with a nonzero nonce followed by
    the count 0xffffffffffffffff and nothing else, the header and the count
    decode and [ParseBlock] panics in [make] before it decodes a
    transaction; on a header with nonce 0 followed by the same value as
    trailer length, the header decoder panics and [ParseBlock] with it.
    Neither call returns an error, where the specification has the error of
    the failing step. *)
Theorem C8_block_decode_panics_without_an_error :
  (parseBlockHeader (Sample.oversized [x01; x00; x00; x00])
   = Ok (Fixture.decoded 1, repeat xff 9)
   /\ wire.ReadVarInt (repeat xff 9) = Ok (2 ^ 64 - 1, [])
   /\ ParseBlock (Sample.oversized [x01; x00; x00; x00])
      = Panic "runtime error: makeslice: len out of range")
  /\ (parseBlockHeader (Sample.oversized [x00; x00; x00; x00])
      = Panic "runtime error: makeslice: len out of range"
      /\ ParseBlock (Sample.oversized [x00; x00; x00; x00])
         = Panic "runtime error: makeslice: len out of range")
  /\ (forall e : error,
         ParseBlock (Sample.oversized [x01; x00; x00; x00]) <> Err e
         /\ ParseBlock (Sample.oversized [x00; x00; x00; x00]) <> Err e).
Proof.
  assert (Hcount : ParseBlock (Sample.oversized [x01; x00; x00; x00])
                   = Panic "runtime error: makeslice: len out of range")
    by reflexivity.
  assert (Hheader : ParseBlock (Sample.oversized [x00; x00; x00; x00])
                    = Panic "runtime error: makeslice: len out of range")
    by reflexivity.
  split; [|split].
  - split; [reflexivity|]. split; [reflexivity | exact Hcount].
  - split; [reflexivity | exact Hheader].
  - intros e. rewrite Hcount, Hheader. split; discriminate.
Qed.

(** ** The JSON importer *)

Lemma ParseTxFromJson_loop_Ok (vouts : list bchain.Vout.t) :
  forall vouts',
    ParseTxFromJson_loop vouts = Ok vouts' -> Forall2 converted vouts vouts'.
Proof.
  induction vouts as [|vout vouts IH]; intros vouts' H.
  - inversion H. constructor.
  - cbn [ParseTxFromJson_loop] in H.
    bind_inv H. rename a into valueSat.
    bind_inv H. rename a into rest.
    inversion H; subst. constructor.
    + unfold converted. simpl. auto.
    + apply IH. exact H1.
Qed.

Lemma ParseTxFromJson_loop_Err
    (pre : list bchain.Vout.t) (vout : bchain.Vout.t)
    (post : list bchain.Vout.t) (e : error) :
  Forall (fun v => exists z, AmountToBigInt p (bchain.Vout.JsonValue v) = Ok z)
    pre ->
  AmountToBigInt p (bchain.Vout.JsonValue vout) = Err e ->
  ParseTxFromJson_loop (pre ++ vout :: post) = Err e.
Proof.
  intros Hpre Herr. induction Hpre as [|v pre [z Hz] _ IH].
  - simpl. rewrite Herr. reflexivity.
  - simpl. rewrite Hz. cbn [bind]. rewrite IH. reflexivity.
Qed.

Lemma ParseTxFromJson_loop_fails
    (vouts : list bchain.Vout.t) (vout : bchain.Vout.t) (e : error) :
  (forall n msg, AmountToBigInt p n <> Panic msg) ->
  In vout vouts ->
  AmountToBigInt p (bchain.Vout.JsonValue vout) = Err e ->
  exists e', ParseTxFromJson_loop vouts = Err e'.
Proof.
  intros Hsafe Hin Herr. induction vouts as [|v vouts IH]; [contradiction|].
  cbn [ParseTxFromJson_loop].
  destruct (AmountToBigInt p (bchain.Vout.JsonValue v)) as [z|e0|msg] eqn:Hv.
  - destruct Hin as [->|Hin]; [congruence|].
    destruct (IH Hin) as [e' He']. cbn [bind]. rewrite He'.
    exists e'. reflexivity.
  - exists e0. reflexivity.
  - exfalso. exact (Hsafe _ _ Hv).
Qed.

(** C9: a JSON transaction that imports has every output's decimal amount
    converted by the amount-parsing routine and its decimal field emptied,
    and is normalized; malformed JSON and an amount that does not parse are
    errors of the import.  One output of amount 1.5 on a chain of 8 decimal
    places gives the satoshi amount 150000000 and an empty decimal field. *)
Theorem C9_json_import (msg : list byte) :
  (forall tx',
      ParseTxFromJson msg = Ok tx' ->
      exists tx vouts,
        json_Unmarshal msg = Ok tx
        /\ Forall2 converted (bchain.Tx.Vout tx) vouts
        /\ bchain.Tx.Vout tx' = vouts
        /\ tx' = fst (parseIndexTx
                        (bchain.Tx.mk
                           (bchain.Tx.Hex tx) (bchain.Tx.Txid tx)
                           (bchain.Tx.Version tx) (bchain.Tx.LockTime tx)
                           (bchain.Tx.Vin tx) vouts
                           (bchain.Tx.Confirmations tx) (bchain.Tx.Time tx)
                           (bchain.Tx.Blocktime tx))))
  /\ (forall e,
         json_Unmarshal msg = Err e ->
         ParseTxFromJson msg = Err e)
  /\ (forall tx pre vout post e,
         json_Unmarshal msg = Ok tx ->
         bchain.Tx.Vout tx = pre ++ vout :: post ->
         Forall (fun v =>
                   exists z, AmountToBigInt p (bchain.Vout.JsonValue v) = Ok z)
           pre ->
         AmountToBigInt p (bchain.Vout.JsonValue vout) = Err e ->
         ParseTxFromJson msg = Err e)
  /\ (forall tx vout e,
         json_Unmarshal msg = Ok tx ->
         In vout (bchain.Tx.Vout tx) ->
         AmountToBigInt p (bchain.Vout.JsonValue vout) = Err e ->
         (forall n m, AmountToBigInt p n <> Panic m) ->
         exists e', ParseTxFromJson msg = Err e')
  /\ (forall tx vout,
         json_Unmarshal msg = Ok tx ->
         bchain.Tx.Vout tx = [vout] ->
         bchain.Vout.JsonValue vout = "1.5" ->
         (forall n, AmountToBigInt p n = BaseParser.AmountToBigInt 8 n) ->
         exists tx',
           ParseTxFromJson msg = Ok tx'
           /\ bchain.Tx.Vout tx'
              = [bchain.Vout.mk 150000000 EmptyString
                   (bchain.Vout.N vout) (bchain.Vout.ScriptPubKey vout)]).
Proof.
  split; [|split; [|split; [|split]]].
  - intros tx' H. unfold ParseTxFromJson in H.
    bind_inv H. rename a into tx. bind_inv H. rename a into vouts.
    exists tx, vouts. split; [assumption|]. split.
    + apply ParseTxFromJson_loop_Ok. assumption.
    + inversion H; subst. split; reflexivity.
  - intros e H. unfold ParseTxFromJson. rewrite H. reflexivity.
  - intros tx pre vout post e Hjson Hvout Hpre Herr.
    unfold ParseTxFromJson. rewrite Hjson. cbn [bind]. rewrite Hvout.
    rewrite (ParseTxFromJson_loop_Err pre vout post e Hpre Herr).
    reflexivity.
  - intros tx vout e Hjson Hin Herr Hsafe.
    destruct (ParseTxFromJson_loop_fails _ vout e Hsafe Hin Herr) as [e' He'].
    exists e'. unfold ParseTxFromJson. rewrite Hjson. cbn [bind].
    rewrite He'. reflexivity.
  - intros tx vout Hjson Hvout Hvalue Hchain.
    unfold ParseTxFromJson. rewrite Hjson. cbn [bind]. rewrite Hvout.
    cbn [ParseTxFromJson_loop]. rewrite Hvalue, Hchain.
    eexists. split; reflexivity.
Qed.

(** * Further properties *)

(** ** The normalizer and the two entry points *)

Lemma parseIndexTx_Normalized (tx : bchain.Tx.t) :
  Normalized (fst (parseIndexTx tx)).
Proof.
  unfold Normalized. rewrite parseIndexTx_Vin. apply Forall_forall.
  intros vin Hin. apply in_map_iff in Hin.
  destruct Hin as [vin0 [<- _]]. apply parseIndexVin_Txid.
Qed.

Lemma map_parseIndexVin_fixed (vins : list bchain.Vin.t) :
  map parseIndexVin vins = vins
  <-> Forall (fun vin => bchain.Vin.Txid vin <> SpendTxID) vins.
Proof.
  induction vins as [|vin vins IH]; simpl.
  - split; [constructor | reflexivity].
  - split.
    + intros H. inversion H as [[Hvin Hvins]]. constructor.
      * rewrite <- Hvin at 1. apply parseIndexVin_Txid.
      * rewrite Hvins. apply IH. exact Hvins.
    + intros H. inversion H as [|? ? Hvin Hvins]; subst.
      rewrite (parseIndexVin_other vin Hvin).
      f_equal. apply IH. exact Hvins.
Qed.

(** X1: the transactions that the normalizer leaves as they are are exactly
    those without an input whose previous-transaction-id is the sentinel. *)
Theorem X1_normalizer_fixed_points (tx : bchain.Tx.t) :
  fst (parseIndexTx tx) = tx <-> Normalized tx.
Proof.
  unfold Normalized. rewrite <- map_parseIndexVin_fixed.
  destruct tx as [hex txid version lockTime vin vout conf time blocktime].
  unfold parseIndexTx. simpl. split.
  - intros H. inversion H as [Hvin]. rewrite Hvin. exact Hvin.
  - intros H. rewrite H. reflexivity.
Qed.

(** X2: every transaction of a block that [ParseBlock] returns is
    normalized: none of its inputs has the sentinel as
    previous-transaction-id, and a further pass of the normalizer changes
    nothing. *)
Theorem X2_block_transactions_are_normalized
    (b : list byte) (block : bchain.Block.t) :
  ParseBlock b = Ok block ->
  Forall (fun tx => Normalized tx /\ fst (parseIndexTx tx) = tx)
    (bchain.Block.Txs block).
Proof.
  intros H. apply ParseBlock_of_reader in H. destruct H as [rest H].
  apply ParseBlock_reader_Ok_inv in H.
  destruct H as [header [r1 [ntx [r2 [msgs [_ [_ [_ [_ [_ ->]]]]]]]]]].
  simpl. apply Forall_forall. intros tx Hin.
  apply in_map_iff in Hin. destruct Hin as [m [<- _]].
  unfold normalized.
  pose proof (parseIndexTx_Normalized (TxFromMsgTx p m false)) as Hn.
  split; [exact Hn|].
  apply map_parseIndexVin_fixed in Hn.
  destruct (TxFromMsgTx p m false); unfold parseIndexTx in *; simpl in *.
  rewrite Hn. reflexivity.
Qed.

(** X3: a transaction that [ParseTxFromJson] returns is normalized, has as
    many inputs and outputs as the unmarshalled transaction, in the same
    order, and the unmarshalled values of every field other than the inputs
    and the outputs. *)
Theorem X3_json_import_frame (msg : list byte) (tx' : bchain.Tx.t) :
  ParseTxFromJson msg = Ok tx' ->
  Normalized tx'
  /\ exists tx,
       json_Unmarshal msg = Ok tx
       /\ bchain.Tx.Vin tx' = map parseIndexVin (bchain.Tx.Vin tx)
       /\ List.length (bchain.Tx.Vout tx') = List.length (bchain.Tx.Vout tx)
       /\ bchain.Tx.Hex tx' = bchain.Tx.Hex tx
       /\ bchain.Tx.Txid tx' = bchain.Tx.Txid tx
       /\ bchain.Tx.Version tx' = bchain.Tx.Version tx
       /\ bchain.Tx.LockTime tx' = bchain.Tx.LockTime tx
       /\ bchain.Tx.Confirmations tx' = bchain.Tx.Confirmations tx
       /\ bchain.Tx.Time tx' = bchain.Tx.Time tx
       /\ bchain.Tx.Blocktime tx' = bchain.Tx.Blocktime tx.
Proof.
  intros H. unfold ParseTxFromJson in H.
  bind_inv H. rename a into tx. bind_inv H. rename a into vouts.
  inversion H; subst tx'. split.
  - apply Forall_forall. intros vin Hin. simpl in Hin.
    apply in_map_iff in Hin. destruct Hin as [vin0 [<- _]].
    apply parseIndexVin_Txid.
  - exists tx. split; [assumption|]. simpl.
    split; [reflexivity|]. split.
    + apply ParseTxFromJson_loop_Ok in H1.
      symmetry. exact (Forall2_length H1).
    + repeat split.
Qed.

(** ** The header on the wire *)

Lemma firstn_app_n {T : Type} (n : nat) (a b : list T) :
  List.length a = n -> firstn n (a ++ b) = a.
Proof.
  intros <-. rewrite firstn_app, firstn_all, Nat.sub_diag. simpl.
  apply app_nil_r.
Qed.

Lemma skipn_app_n {T : Type} (n : nat) (a b : list T) :
  List.length a = n -> skipn n (a ++ b) = b.
Proof.
  intros <-. rewrite skipn_app, skipn_all, Nat.sub_diag. reflexivity.
Qed.

(** The six fields of a header that decodes, as they lie in the stream. *)
Lemma Deserialize_fields (r : Reader) (h : wire.BlockHeader.t) (r' : Reader) :
  wire.BlockHeader.Deserialize r = Ok (h, r') ->
  exists c1 c2 c3 c4 c5 c6,
    r = c1 ++ c2 ++ c3 ++ c4 ++ c5 ++ c6 ++ r'
    /\ List.length c1 = 4%nat /\ List.length c2 = 32%nat
    /\ List.length c3 = 32%nat /\ List.length c4 = 4%nat
    /\ List.length c5 = 4%nat /\ List.length c6 = 4%nat
    /\ h = wire.BlockHeader.mk (wire.int32 (wire.littleEndian c1)) c2 c3
             (wire.littleEndian c4) (wire.littleEndian c5)
             (wire.littleEndian c6).
Proof.
  intros H. unfold wire.BlockHeader.Deserialize, wire.Uint32 in H.
  bind_inv H. destruct a as [version r1].
  apply fixed_Ok in H0. destruct H0 as [c1 [-> [L1 ->]]].
  bind_inv H. destruct a as [c2 r2].
  apply ReadFull_Ok in H0. destruct H0 as [-> L2].
  bind_inv H. destruct a as [c3 r3].
  apply ReadFull_Ok in H0. destruct H0 as [-> L3].
  bind_inv H. destruct a as [sec r4].
  apply fixed_Ok in H0. destruct H0 as [c4 [-> [L4 ->]]].
  bind_inv H. destruct a as [bits r5].
  apply fixed_Ok in H0. destruct H0 as [c5 [-> [L5 ->]]].
  bind_inv H. destruct a as [nonce r6].
  apply fixed_Ok in H0. destruct H0 as [c6 [-> [L6 ->]]].
  inversion H; subst.
  exists c1, c2, c3, c4, c5, c6.
  repeat (split; [first [reflexivity|assumption]|]).
  reflexivity.
Qed.

(** The time is the little-endian word at offset 68 of the stream, the nonce
    the one at offset 76, and the stream goes on at offset 80. *)
Lemma Deserialize_offsets (r : Reader) (h : wire.BlockHeader.t) (r' : Reader) :
  wire.BlockHeader.Deserialize r = Ok (h, r') ->
  wire.BlockHeader.Timestamp h = wire.littleEndian (firstn 4 (skipn 68 r))
  /\ wire.BlockHeader.Nonce h = wire.littleEndian (firstn 4 (skipn 76 r))
  /\ r' = skipn 80 r
  /\ 0 <= wire.BlockHeader.Timestamp h < 2 ^ 32.
Proof.
  intros H.
  destruct (Deserialize_fields _ _ _ H)
    as [c1 [c2 [c3 [c4 [c5 [c6 [-> [L1 [L2 [L3 [L4 [L5 [L6 ->]]]]]]]]]]]]].
  cbn [wire.BlockHeader.Timestamp wire.BlockHeader.Nonce].
  split; [|split; [|split]].
  - replace (c1 ++ c2 ++ c3 ++ c4 ++ c5 ++ c6 ++ r')
      with ((c1 ++ c2 ++ c3) ++ c4 ++ c5 ++ c6 ++ r')
      by (rewrite <- !app_assoc; reflexivity).
    rewrite skipn_app_n by (rewrite !length_app; lia).
    rewrite firstn_app_n by assumption. reflexivity.
  - replace (c1 ++ c2 ++ c3 ++ c4 ++ c5 ++ c6 ++ r')
      with ((c1 ++ c2 ++ c3 ++ c4 ++ c5) ++ c6 ++ r')
      by (rewrite <- !app_assoc; reflexivity).
    rewrite skipn_app_n by (rewrite !length_app; lia).
    rewrite firstn_app_n by assumption. reflexivity.
  - replace (c1 ++ c2 ++ c3 ++ c4 ++ c5 ++ c6 ++ r')
      with ((c1 ++ c2 ++ c3 ++ c4 ++ c5 ++ c6) ++ r')
      by (rewrite <- !app_assoc; reflexivity).
    rewrite skipn_app_n by (rewrite !length_app; lia). reflexivity.
  - pose proof (littleEndian_range c4) as Hr. rewrite L4 in Hr.
    change (256 ^ Z.of_nat 4) with (2 ^ 32) in Hr. exact Hr.
Qed.

Lemma parseBlockHeader_Deserialize
    (r : Reader) (h : wire.BlockHeader.t) (r' : Reader) :
  parseBlockHeader r = Ok (h, r') ->
  exists r1, wire.BlockHeader.Deserialize r = Ok (h, r1).
Proof.
  intros H. unfold parseBlockHeader in H.
  bind_inv H. destruct a as [h0 r1]. exists r1.
  destruct (wire.BlockHeader.Nonce h0 =? 0).
  - bind_inv H. destruct a as [sigLength r2]. bind_inv H. bind_inv H.
    destruct a0 as [buf r3]. inversion H; subst. exact H0.
  - inversion H; subst. exact H0.
Qed.

Lemma VarIntSerializeSize_pos (v : Z) : 1 <= wire.VarIntSerializeSize v.
Proof.
  unfold wire.VarIntSerializeSize.
  destruct (v <? 253); [lia|].
  destruct (v <=? 65535); [lia|].
  destruct (v <=? 4294967295); lia.
Qed.

(** X4: a buffer that [ParseBlock] decodes has at least 81 bytes, and at
    least 82 when the nonce at offset 76 is zero; of the header of the block
    only the size and the time are filled, the hash, the neighbouring hashes,
    the height and the confirmations keep their zero values. *)
Theorem X4_block_shape (b : list byte) (block : bchain.Block.t) :
  ParseBlock b = Ok block ->
  (81 <= List.length b)%nat
  /\ (wire.littleEndian (firstn 4 (skipn 76 b)) = 0 ->
      (82 <= List.length b)%nat)
  /\ bchain.BlockHeader.Size (bchain.Block.BlockHeader block)
     = Z.of_nat (List.length b)
  /\ bchain.BlockHeader.Hash (bchain.Block.BlockHeader block) = EmptyString
  /\ bchain.BlockHeader.Prev (bchain.Block.BlockHeader block) = EmptyString
  /\ bchain.BlockHeader.Next (bchain.Block.BlockHeader block) = EmptyString
  /\ bchain.BlockHeader.Height (bchain.Block.BlockHeader block) = 0
  /\ bchain.BlockHeader.Confirmations (bchain.Block.BlockHeader block) = 0.
Proof.
  intros H. apply ParseBlock_of_reader in H. destruct H as [rest H].
  apply ParseBlock_reader_Ok_inv in H.
  destruct H as [header [r1 [ntx [r2 [msgs [Hh [Hn [_ [_ [_ ->]]]]]]]]]].
  destruct (parseBlockHeader_Deserialize _ _ _ Hh) as [r0 Hd].
  destruct (Deserialize_offsets _ _ _ Hd) as [_ [Hnonce _]].
  destruct (parseBlockHeader_Ok _ _ _ Hh) as [c [Hb [_ Hc]]].
  destruct (ReadVarInt_Ok _ _ _ Hn) as [c1 [Hr1 [Hsize _]]].
  pose proof (VarIntSerializeSize_pos ntx) as Hpos.
  assert (Hlen : List.length b
                 = (List.length c + List.length c1 + List.length r2)%nat)
    by (rewrite Hb, Hr1, !length_app; lia).
  cbn [bchain.Block.BlockHeader bchain.BlockHeader.Size
       bchain.BlockHeader.Hash bchain.BlockHeader.Prev
       bchain.BlockHeader.Next bchain.BlockHeader.Height
       bchain.BlockHeader.Confirmations].
  repeat split.
  - destruct Hc as [[_ Hc]|[_ [L [_ [HL Hc]]]]].
    + lia.
    + pose proof (VarIntSerializeSize_pos L). lia.
  - intros Hzero. rewrite <- Hnonce in Hzero.
    destruct Hc as [[Hc _]|[_ [L [_ [HL Hc]]]]].
    + contradiction.
    + pose proof (VarIntSerializeSize_pos L). lia.
Qed.

(** X5: the time of a block that [ParseBlock] returns is the little-endian
    32-bit word at offset 68 of the buffer, so it lies between 0 and
    2^32 - 1. *)
Theorem X5_block_time_is_the_word_at_offset_68
    (b : list byte) (block : bchain.Block.t) :
  ParseBlock b = Ok block ->
  bchain.BlockHeader.Time (bchain.Block.BlockHeader block)
  = wire.littleEndian (firstn 4 (skipn 68 b))
  /\ 0 <= bchain.BlockHeader.Time (bchain.Block.BlockHeader block) < 2 ^ 32.
Proof.
  intros H. apply ParseBlock_of_reader in H. destruct H as [rest H].
  apply ParseBlock_reader_Ok_inv in H.
  destruct H as [header [r1 [ntx [r2 [msgs [Hh [_ [_ [_ [_ ->]]]]]]]]]].
  destruct (parseBlockHeader_Deserialize _ _ _ Hh) as [r0 Hd].
  destruct (Deserialize_offsets _ _ _ Hd) as [Htime [_ [_ Hrange]]].
  cbn [bchain.Block.BlockHeader bchain.BlockHeader.Time].
  unfold wire.BlockHeader.Unix. rewrite <- Htime. auto.
Qed.

Lemma ReadFull_cases (r : Reader) (n : nat) :
  (exists v, io.ReadFull r n = Ok v)
  \/ io.ReadFull r n = Err io_EOF
  \/ io.ReadFull r n = Err io_ErrUnexpectedEOF.
Proof.
  unfold io.ReadFull. destruct (n <=? List.length r)%nat.
  - left. eexists. reflexivity.
  - destruct r; auto.
Qed.

Ltac read_step :=
  match goal with
  | |- context [io.ReadFull ?r ?n] =>
      destruct (ReadFull_cases r n) as [[[? ?] ->]|[->| ->]];
      cbn [bind];
      [| right; left; reflexivity | right; right; reflexivity]
  end.

(** The header either decodes or ends the stream too early. *)
Lemma Deserialize_cases (r : Reader) :
  (exists v, wire.BlockHeader.Deserialize r = Ok v)
  \/ wire.BlockHeader.Deserialize r = Err io_EOF
  \/ wire.BlockHeader.Deserialize r = Err io_ErrUnexpectedEOF.
Proof.
  unfold wire.BlockHeader.Deserialize, wire.Uint32.
  repeat read_step. left. eexists. reflexivity.
Qed.

Lemma Deserialize_whole (hdr : list byte) (h : wire.BlockHeader.t) :
  wire.BlockHeader.Deserialize hdr = Ok (h, []) ->
  List.length hdr = 80%nat
  /\ forall x, wire.BlockHeader.Deserialize (hdr ++ x) = Ok (h, x).
Proof.
  intros H. destruct (Deserialize_Ok _ _ _ H) as [c [Hc [Hlen Happ]]].
  rewrite app_nil_r in Hc. subst c. auto.
Qed.

Lemma ReadVarInt_whole (c : list byte) (v : Z) :
  wire.ReadVarInt c = Ok (v, []) ->
  forall x, wire.ReadVarInt (c ++ x) = Ok (v, x).
Proof.
  intros H. destruct (ReadVarInt_Ok _ _ _ H) as [c0 [Hc [_ [_ Happ]]]].
  rewrite app_nil_r in Hc. subst c0. exact Happ.
Qed.

Lemma ParseBlock_header_Err (b : list byte) (e : error) :
  parseBlockHeader b = Err e -> ParseBlock b = Err e.
Proof.
  intros H. unfold ParseBlock, ParseBlock_reader. rewrite H. reflexivity.
Qed.

Lemma ParseBlock_header_Panic (b : list byte) (msg : string) :
  parseBlockHeader b = Panic msg -> ParseBlock b = Panic msg.
Proof.
  intros H. unfold ParseBlock, ParseBlock_reader. rewrite H. reflexivity.
Qed.

(** X6: a buffer of fewer than 80 bytes is no header and no block: both
    decoders fail with io.EOF or io.ErrUnexpectedEOF, and with io.EOF on the
    empty buffer. *)
Theorem X6_short_buffer_is_an_EOF_error (b : list byte) :
  (List.length b < 80)%nat ->
  exists e,
    (e = io_EOF \/ e = io_ErrUnexpectedEOF)
    /\ parseBlockHeader b = Err e
    /\ ParseBlock b = Err e
    /\ (b = [] -> e = io_EOF).
Proof.
  intros Hlen.
  destruct (Deserialize_cases b) as [[[h r1] H]|[H|H]].
  - destruct (Deserialize_Ok _ _ _ H) as [c [Hb [Hc _]]].
    rewrite Hb, length_app in Hlen. lia.
  - exists io_EOF. split; [auto|].
    apply parseBlockHeader_Deserialize_Err in H.
    split; [exact H|]. split; [apply ParseBlock_header_Err; exact H|].
    reflexivity.
  - exists io_ErrUnexpectedEOF. split; [auto|].
    split; [|split].
    + apply parseBlockHeader_Deserialize_Err. exact H.
    + apply ParseBlock_header_Err, parseBlockHeader_Deserialize_Err. exact H.
    + intros ->. discriminate H.
Qed.

(** X7: on a stream of at least 80 bytes whose nonce, the word at offset 76,
    is not zero, the header decoder succeeds whatever the bytes are, and
    leaves the stream at offset 80. *)
Theorem X7_header_with_nonce_always_decodes (r : Reader) :
  (80 <= List.length r)%nat ->
  wire.littleEndian (firstn 4 (skipn 76 r)) <> 0 ->
  exists h,
    parseBlockHeader r = Ok (h, skipn 80 r)
    /\ wire.BlockHeader.Nonce h = wire.littleEndian (firstn 4 (skipn 76 r))
    /\ wire.BlockHeader.Timestamp h
       = wire.littleEndian (firstn 4 (skipn 68 r)).
Proof.
  intros Hlen Hnonce.
  destruct (Deserialize_total (firstn 80 r)) as [h Hh].
  { apply firstn_length_le. exact Hlen. }
  specialize (Hh (skipn 80 r)). rewrite firstn_skipn in Hh.
  destruct (Deserialize_offsets _ _ _ Hh) as [Htime [Hn _]].
  exists h. split; [|split; assumption].
  apply parseBlockHeader_pow; [exact Hh|]. rewrite Hn. exact Hnonce.
Qed.

(** X8: the trailer of a header with nonce 0 is read and thrown away: two
    buffers that differ in the trailer bytes only give the same header, the
    same rest of the stream and the same result of [ParseBlock]. *)
Theorem X8_trailer_bytes_do_not_matter
    (hdr : list byte) (h : wire.BlockHeader.t) (len : list byte)
    (sigLength : Z) (sig1 sig2 x : list byte) :
  wire.BlockHeader.Deserialize hdr = Ok (h, []) ->
  wire.BlockHeader.Nonce h = 0 ->
  wire.ReadVarInt len = Ok (sigLength, []) ->
  allocatable 1 sigLength ->
  Z.of_nat (List.length sig1) = sigLength ->
  Z.of_nat (List.length sig2) = sigLength ->
  parseBlockHeader (hdr ++ len ++ sig1 ++ x) = Ok (h, x)
  /\ parseBlockHeader (hdr ++ len ++ sig2 ++ x) = Ok (h, x)
  /\ ParseBlock (hdr ++ len ++ sig1 ++ x)
     = ParseBlock (hdr ++ len ++ sig2 ++ x).
Proof.
  intros Hh Hnonce Hlen Halloc H1 H2.
  destruct (Deserialize_whole _ _ Hh) as [_ Happ].
  pose proof (ReadVarInt_whole _ _ Hlen) as Hvar.
  assert (Hp1 : parseBlockHeader (hdr ++ len ++ sig1 ++ x) = Ok (h, x)).
  { apply (parseBlockHeader_pos _ h (len ++ sig1 ++ x) sigLength sig1 x);
      auto. }
  assert (Hp2 : parseBlockHeader (hdr ++ len ++ sig2 ++ x) = Ok (h, x)).
  { apply (parseBlockHeader_pos _ h (len ++ sig2 ++ x) sigLength sig2 x);
      auto. }
  split; [exact Hp1|]. split; [exact Hp2|].
  assert (Hsize : List.length (hdr ++ len ++ sig1 ++ x)
                  = List.length (hdr ++ len ++ sig2 ++ x))
    by (rewrite !length_app; lia).
  unfold ParseBlock, ParseBlock_reader.
  rewrite Hp1, Hp2, Hsize. reflexivity.
Qed.

Lemma ReadVarInt_cons (d : byte) (rest : list byte) :
  wire.ReadVarInt (d :: rest)
  = match d with
    | xff =>
        '(sv, r) <- wire.Uint64 rest ;;
        if sv <? 0x100000000
        then Err (wire_ErrNonCanonicalVarInt sv d 0x100000000)
        else Ok (sv, r)
    | xfe =>
        '(sv, r) <- wire.Uint32 rest ;;
        if sv <? 0x10000
        then Err (wire_ErrNonCanonicalVarInt sv d 0x10000)
        else Ok (sv, r)
    | xfd =>
        '(sv, r) <- wire.Uint16 rest ;;
        if sv <? 0xfd
        then Err (wire_ErrNonCanonicalVarInt sv d 0xfd)
        else Ok (sv, r)
    | _ => Ok (wire.uint8 d, rest)
    end.
Proof. reflexivity. Qed.

Lemma ReadVarInt_noncanonical
    (n : nat) (d : byte) (min : Z) (c x : list byte) :
  List.length c = n -> wire.littleEndian c < min ->
  ('(sv, r) <- ('(buf, r1) <- io.ReadFull (c ++ x) n ;;
                Ok (wire.littleEndian buf, r1)) ;;
   if sv <? min then Err (wire_ErrNonCanonicalVarInt sv d min) else Ok (sv, r))
  = Err (wire_ErrNonCanonicalVarInt (wire.littleEndian c) d min).
Proof.
  intros Hlen Hmin. rewrite (fixed_app_n n c x Hlen). simpl.
  apply Z.ltb_lt in Hmin. rewrite Hmin. reflexivity.
Qed.

(** X9: after a header with nonce 0, a trailer length that is not in its
    shortest compact-size form is refused with the non-canonical error of
    [wire.ReadVarInt], by the header decoder and by [ParseBlock]. *)
Theorem X9_noncanonical_trailer_length_is_refused
    (hdr : list byte) (h : wire.BlockHeader.t) (c x : list byte) :
  wire.BlockHeader.Deserialize hdr = Ok (h, []) ->
  wire.BlockHeader.Nonce h = 0 ->
  (List.length c = 2%nat -> wire.littleEndian c < 0xfd ->
   let e := wire_ErrNonCanonicalVarInt (wire.littleEndian c) xfd 0xfd in
   parseBlockHeader (hdr ++ xfd :: c ++ x) = Err e
   /\ ParseBlock (hdr ++ xfd :: c ++ x) = Err e)
  /\ (List.length c = 4%nat -> wire.littleEndian c < 0x10000 ->
      let e := wire_ErrNonCanonicalVarInt (wire.littleEndian c) xfe 0x10000 in
      parseBlockHeader (hdr ++ xfe :: c ++ x) = Err e
      /\ ParseBlock (hdr ++ xfe :: c ++ x) = Err e)
  /\ (List.length c = 8%nat -> wire.littleEndian c < 0x100000000 ->
      let e :=
        wire_ErrNonCanonicalVarInt (wire.littleEndian c) xff 0x100000000 in
      parseBlockHeader (hdr ++ xff :: c ++ x) = Err e
      /\ ParseBlock (hdr ++ xff :: c ++ x) = Err e).
Proof.
  intros Hh Hnonce.
  destruct (Deserialize_whole _ _ Hh) as [_ Happ].
  assert (Hgen : forall d rest e,
             wire.ReadVarInt (d :: rest) = Err e ->
             parseBlockHeader (hdr ++ d :: rest) = Err e
             /\ ParseBlock (hdr ++ d :: rest) = Err e).
  { intros d rest e Hvar.
    assert (Hp : parseBlockHeader (hdr ++ d :: rest) = Err e)
      by (apply (parseBlockHeader_ReadVarInt_Err _ h (d :: rest) e);
          auto).
    split; [exact Hp | apply ParseBlock_header_Err; exact Hp]. }
  split; [|split]; intros Hlen Hmin; cbv zeta; apply Hgen;
    rewrite ReadVarInt_cons; apply ReadVarInt_noncanonical; assumption.
Qed.

(** ** Lengths that cannot be allocated *)

(** X10: after a header with nonce 0, a trailer length above the allocation
    limit of the runtime makes the header decoder, and [ParseBlock] with it,
    panic in [make]; no error is returned. *)
Theorem X10_trailer_length_above_the_limit_panics
    (r : Reader) (h : wire.BlockHeader.t) (r1 : Reader)
    (sigLength : Z) (r2 : Reader) :
  wire.BlockHeader.Deserialize r = Ok (h, r1) ->
  wire.BlockHeader.Nonce h = 0 ->
  wire.ReadVarInt r1 = Ok (sigLength, r2) ->
  maxAlloc < sigLength ->
  parseBlockHeader r = Panic "runtime error: makeslice: len out of range"
  /\ ParseBlock r = Panic "runtime error: makeslice: len out of range".
Proof.
  intros Hh Hnonce Hvar Hmax.
  assert (Hp : parseBlockHeader r
               = Panic "runtime error: makeslice: len out of range").
  { apply (parseBlockHeader_oversized r h r1 sigLength r2); auto.
    intros [_ Hfit]. lia. }
  split; [exact Hp | apply ParseBlock_header_Panic; exact Hp].
Qed.

(** X11: a transaction count whose slice would pass the allocation limit of
    the runtime makes [ParseBlock] panic in [make], before any transaction is
    decoded; no error is returned. *)
Theorem X11_transaction_count_above_the_limit_panics
    (b : list byte) (header : wire.BlockHeader.t) (r1 : Reader)
    (ntx : Z) (r2 : Reader) :
  parseBlockHeader b = Ok (header, r1) ->
  wire.ReadVarInt r1 = Ok (ntx, r2) ->
  maxAlloc < sizeofTx * ntx ->
  ParseBlock b = Panic "runtime error: makeslice: len out of range".
Proof.
  intros Hh Hn Hmax. unfold ParseBlock, ParseBlock_reader.
  rewrite Hh. cbn [bind]. rewrite Hn. cbn [bind].
  rewrite (makeslice_Panic sizeofTx bchain.Tx.zero ntx); [reflexivity|].
  intros [_ Hfit]. lia.
Qed.

(** ** The network parameters *)

Lemma IsRegistered_In (params : chaincfg.Params) (reg : chaincfg.Registry) :
  chaincfg.IsRegistered params reg = true <-> In (chaincfg.Net params) reg.
Proof.
  unfold chaincfg.IsRegistered. rewrite existsb_exists. split.
  - intros [n [Hin Heq]]. apply Z.eqb_eq in Heq. subst. exact Hin.
  - intros Hin. exists (chaincfg.Net params). split; [exact Hin|].
    apply Z.eqb_refl.
Qed.

Lemma IsRegistered_not_In (params : chaincfg.Params) (reg : chaincfg.Registry) :
  chaincfg.IsRegistered params reg = false <-> ~ In (chaincfg.Net params) reg.
Proof.
  rewrite <- IsRegistered_In.
  destruct (chaincfg.IsRegistered params reg); split; intros H;
    try reflexivity; try discriminate; try congruence.
Qed.

Lemma Register_new (params : chaincfg.Params) (reg : chaincfg.Registry) :
  ~ In (chaincfg.Net params) reg ->
  chaincfg.Register params reg = (None, chaincfg.Net params :: reg).
Proof.
  intros H. unfold chaincfg.Register.
  apply IsRegistered_not_In in H. rewrite H. reflexivity.
Qed.

Lemma Register_duplicate (params : chaincfg.Params) (reg : chaincfg.Registry) :
  In (chaincfg.Net params) reg ->
  chaincfg.Register params reg = (Some chaincfg.ErrDuplicateNet, reg).
Proof.
  intros H. unfold chaincfg.Register.
  apply IsRegistered_In in H. rewrite H. reflexivity.
Qed.

(** With the main network registered, nothing is registered and the call
    returns. *)
Lemma GetChainParams_registered
    (lib : Nets) (chain : string) (reg : chaincfg.Registry) :
  In MainnetMagic reg ->
  GetChainParams (init lib) chain reg
  = (Ok (selectParams (init lib) chain), reg).
Proof.
  intros H. unfold GetChainParams.
  replace (chaincfg.IsRegistered (MainNetParams (init lib)) reg) with true
    by (symmetry; apply IsRegistered_In; exact H).
  reflexivity.
Qed.

(** X12: when none of the three network magics is registered,
    [GetChainParams] registers the main, the test and the regression test
    network, in this order, and returns the parameters of the test network
    for the chain test, of the regression test network for regtest and of the
    main network for every other name. *)
Theorem X12_first_call_registers_the_three_networks
    (lib : Nets) (chain : string) (reg : chaincfg.Registry) :
  ~ In MainnetMagic reg ->
  ~ In TestnetMagic reg ->
  ~ In RegtestMagic reg ->
  GetChainParams (init lib) chain reg
  = (Ok (selectParams (init lib) chain),
     RegtestMagic :: TestnetMagic :: MainnetMagic :: reg)
  /\ chaincfg.Net (selectParams (init lib) chain)
     = (if String.eqb chain "test" then TestnetMagic
        else if String.eqb chain "regtest" then RegtestMagic
        else MainnetMagic).
Proof.
  intros Hmain Htest Hreg. split.
  - unfold GetChainParams.
    replace (chaincfg.IsRegistered (MainNetParams (init lib)) reg) with false
      by (symmetry; apply IsRegistered_not_In; exact Hmain).
    cbn [negb]. rewrite Register_new by exact Hmain.
    rewrite Register_new.
    + rewrite Register_new; [reflexivity|].
      simpl. intros [H|[H|H]]; try discriminate H. contradiction.
    + simpl. intros [H|H]; [discriminate H | contradiction].
  - unfold selectParams.
    destruct (String.eqb chain "test"); [reflexivity|].
    destruct (String.eqb chain "regtest"); reflexivity.
Qed.

(** X13: after any call of [GetChainParams], whether it returned or
    panicked, the main network is registered, and every later call returns
    without a panic and leaves the registry as it is. *)
Theorem X13_later_calls_register_nothing
    (lib : Nets) (chain1 chain2 : string) (reg : chaincfg.Registry) :
  let reg1 := snd (GetChainParams (init lib) chain1 reg) in
  In MainnetMagic reg1
  /\ GetChainParams (init lib) chain2 reg1
     = (Ok (selectParams (init lib) chain2), reg1).
Proof.
  assert (Hin : In MainnetMagic (snd (GetChainParams (init lib) chain1 reg))).
  { unfold GetChainParams.
    destruct (chaincfg.IsRegistered (MainNetParams (init lib)) reg) eqn:Hmain.
    - apply IsRegistered_In in Hmain. exact Hmain.
    - apply IsRegistered_not_In in Hmain. cbn [negb].
      rewrite Register_new by exact Hmain.
      unfold chaincfg.Register.
      destruct (chaincfg.IsRegistered (TestNetParams (init lib))
                  (chaincfg.Net (MainNetParams (init lib)) :: reg)).
      + simpl. auto.
      + destruct (chaincfg.IsRegistered (RegtestParams (init lib))
                    (chaincfg.Net (TestNetParams (init lib))
                     :: chaincfg.Net (MainNetParams (init lib)) :: reg));
          simpl; auto. }
  split; [exact Hin|]. apply GetChainParams_registered. exact Hin.
Qed.

(** X14: when the main network is not registered and the magic of the test
    network, or else of the regression test network, already is,
    [GetChainParams] panics with the duplicate-network error, and the
    networks registered before the clash stay registered. *)
Theorem X14_magic_clash_panics
    (lib : Nets) (chain : string) (reg : chaincfg.Registry) :
  ~ In MainnetMagic reg ->
  (In TestnetMagic reg ->
   GetChainParams (init lib) chain reg
   = (Panic "duplicate Bitcoin network", MainnetMagic :: reg))
  /\ (~ In TestnetMagic reg -> In RegtestMagic reg ->
      GetChainParams (init lib) chain reg
      = (Panic "duplicate Bitcoin network",
         TestnetMagic :: MainnetMagic :: reg)).
Proof.
  intros Hmain.
  assert (Hfirst : chaincfg.IsRegistered (MainNetParams (init lib)) reg = false)
    by (apply IsRegistered_not_In; exact Hmain).
  split.
  - intros Htest. unfold GetChainParams. rewrite Hfirst. cbn [negb].
    rewrite Register_new by exact Hmain.
    rewrite Register_duplicate by (simpl; auto). reflexivity.
  - intros Htest Hreg. unfold GetChainParams. rewrite Hfirst. cbn [negb].
    rewrite Register_new by exact Hmain.
    rewrite Register_new.
    + rewrite Register_duplicate by (simpl; auto). reflexivity.
    + simpl. intros [H|H]; [discriminate H | contradiction].
Qed.

(** ** The address resolver, read backwards *)

(** X15: [GetAddressesFromAddrDesc] calls the generic resolver at most once
    and only on the descriptor it was given; a result that is searchable,
    carries an error, or does not have exactly one address is the result of
    that call, never one of the four labels. *)
Theorem X15_only_the_generic_resolver_gives_searchable_results
    (addrDesc : bchain.AddressDescriptor)
    (addresses : list string) (searchable : bool) (err : option error)
    (calls : list bchain.AddressDescriptor) :
  GetAddressesFromAddrDesc addrDesc = ((addresses, searchable, err), calls) ->
  (calls = [] \/ calls = [addrDesc])
  /\ (searchable = true \/ err <> None \/ List.length addresses <> 1%nat ->
      calls = [addrDesc]
      /\ OutputScriptToAddressesFunc p addrDesc = (addresses, searchable, err)).
Proof.
  unfold GetAddressesFromAddrDesc, reservedLabel. intros H.
  assert (Hgen :
            (OutputScriptToAddressesFunc p addrDesc, [addrDesc])
            = ((addresses, searchable, err), calls) ->
            (calls = [] \/ calls = [addrDesc])
            /\ (searchable = true \/ err <> None
                \/ List.length addresses <> 1%nat ->
                calls = [addrDesc]
                /\ OutputScriptToAddressesFunc p addrDesc
                   = (addresses, searchable, err))).
  { intros E. inversion E; subst. auto. }
  assert (Hlabel :
            forall label : string,
              ((([label], false, @None error)), @nil bchain.AddressDescriptor)
              = ((addresses, searchable, err), calls) ->
              (calls = [] \/ calls = [addrDesc])
              /\ (searchable = true \/ err <> None
                  \/ List.length addresses <> 1%nat ->
                  calls = [addrDesc]
                  /\ OutputScriptToAddressesFunc p addrDesc
                     = (addresses, searchable, err))).
  { intros label E. inversion E; subst. split; [auto|].
    intros [Hs|[He|Hl]]; [discriminate Hs | congruence | simpl in Hl; lia]. }
  destruct addrDesc as [|op rest]; [exact (Hgen H)|].
  destruct (Byte.eqb op OpZeroCoinMint); [exact (Hlabel _ H)|].
  destruct (Byte.eqb op OpZeroCoinSpend); [exact (Hlabel _ H)|].
  destruct (Byte.eqb op OpSigmaMint); [exact (Hlabel _ H)|].
  destruct (Byte.eqb op OpSigmaSpend); [exact (Hlabel _ H)|].
  exact (Hgen H).
Qed.
End IndexChainParser.

(** * Examples *)

Lemma C1_sentinel_is_not_68_zeros :
  ~ (SpendTxID = replicate 68 "0"
     /\ (2 * HashSize < String.length SpendTxID)%nat).
Proof. intros [H _]. discriminate H. Qed.

Lemma C2_sentinel_inputs_rewritten_witness :
  nth_error (bchain.Tx.Vin (Fixture.tx [])) 0 = Some (Fixture.vin SpendTxID)
  /\ exists vin',
       nth_error (bchain.Tx.Vin (fst (parseIndexTx (Fixture.tx [])))) 0
       = Some vin'
       /\ (bchain.Vin.Txid (Fixture.vin SpendTxID) = SpendTxID ->
           bchain.Vin.Coinbase vin' = SpendTxID
           /\ bchain.Vin.Txid vin' = EmptyString
           /\ bchain.Vin.Vout vin' = 0
           /\ bchain.Vin.Sequence vin' = 0)
       /\ (bchain.Vin.Txid (Fixture.vin SpendTxID) <> SpendTxID ->
           vin' = Fixture.vin SpendTxID).
Proof.
  split; [reflexivity|].
  apply (C2_sentinel_inputs_rewritten
           (Fixture.tx []) 0 (Fixture.vin SpendTxID)).
  reflexivity.
Defined.

(** The bytes after 0xC1 are a pay-to-pubkey-hash script, which the generic
    resolver of the examples resolves to an address. *)
Lemma C3_reserved_opcodes_resolve_to_labels_witness :
  (xc1 = xc1
   /\ Fixture.resolver [x76; xa9; x14; x88; xac] = (["a1"], true, None)
   /\ GetAddressesFromAddrDesc Fixture.parser
        (xc1 :: [x76; xa9; x14; x88; xac])
      = ((["Zeromint"], false, None), []))
  /\ (x76 <> xc1 /\ x76 <> xc2 /\ x76 <> xc3 /\ x76 <> xc4
      /\ GetAddressesFromAddrDesc Fixture.parser (x76 :: [xa9; x14; x88; xac])
         = ((["a1"], true, None), [[x76; xa9; x14; x88; xac]])).
Proof.
  split.
  - split; [reflexivity|]. split; [reflexivity|].
    apply (proj1 (C3_reserved_opcodes_resolve_to_labels
                    Fixture.MsgTx Fixture.parser xc1
                    [x76; xa9; x14; x88; xac])).
    reflexivity.
  - repeat (split; [discriminate|]).
    apply (proj1 (proj2 (proj2 (proj2 (proj2
             (C3_reserved_opcodes_resolve_to_labels
                Fixture.MsgTx Fixture.parser x76 [xa9; x14; x88; xac]))))));
      discriminate.
Defined.

Lemma C5_block_assembly_witness :
  (wire.BlockHeader.Deserialize (Fixture.header [x00; x00; x00; x00])
   = Ok (Fixture.decoded 0, [])
   /\ wire.BlockHeader.Nonce (Fixture.decoded 0) = 0
   /\ 3 <= Fixture.maxAlloc
   /\ ParseBlock Fixture.maxAlloc Fixture.sizeofTx Fixture.BtcDecode
        Fixture.parser
        (Fixture.header [x00; x00; x00; x00] ++ [x03; xaa; xbb; xcc] ++ [x00])
      = Ok (Fixture.block 85 []))
  /\ (ParseBlock Fixture.maxAlloc Fixture.sizeofTx Fixture.BtcDecode
        Fixture.parser
        (Fixture.header [x01; x00; x00; x00] ++ [x02; x00; x01; x03; x00])
      = Ok (Fixture.block 85 [Fixture.spend; Fixture.fromMsgTx x01 false])
      /\ exists header r1 ntx r2 msgs rest,
           parseBlockHeader Fixture.maxAlloc
             (Fixture.header [x01; x00; x00; x00] ++ [x02; x00; x01; x03; x00])
           = Ok (header, r1)
           /\ wire.ReadVarInt r1 = Ok (ntx, r2)
           /\ Decodes Fixture.BtcDecode r2 msgs rest
           /\ Z.of_nat
                (List.length
                   (bchain.Block.Txs
                      (Fixture.block 85
                         [Fixture.spend; Fixture.fromMsgTx x01 false])))
              = ntx
           /\ bchain.Block.Txs
                (Fixture.block 85 [Fixture.spend; Fixture.fromMsgTx x01 false])
              = map (fun tx =>
                       fst (parseIndexTx (TxFromMsgTx Fixture.parser tx false)))
                  msgs
           /\ bchain.BlockHeader.Size
                (bchain.Block.BlockHeader
                   (Fixture.block 85
                      [Fixture.spend; Fixture.fromMsgTx x01 false]))
              = Z.of_nat
                  (List.length
                     (Fixture.header [x01; x00; x00; x00]
                      ++ [x02; x00; x01; x03; x00]))
           /\ bchain.BlockHeader.Time
                (bchain.Block.BlockHeader
                   (Fixture.block 85
                      [Fixture.spend; Fixture.fromMsgTx x01 false]))
              = wire.BlockHeader.Unix (wire.BlockHeader.Timestamp header)).
Proof.
  split.
  - split; [reflexivity|]. split; [reflexivity|].
    split; [unfold Fixture.maxAlloc; lia|].
    apply (proj2 (C5_block_assembly Fixture.maxAlloc Fixture.sizeofTx
                    Fixture.MsgTx Fixture.BtcDecode Fixture.parser)
             (Fixture.header [x00; x00; x00; x00]) (Fixture.decoded 0)
             xaa xbb xcc).
    + reflexivity.
    + reflexivity.
    + unfold Fixture.maxAlloc. lia.
  - split; [reflexivity|].
    apply (proj1 (C5_block_assembly Fixture.maxAlloc Fixture.sizeofTx
                    Fixture.MsgTx Fixture.BtcDecode Fixture.parser)).
    reflexivity.
Defined.

(** The buffer of a header with a nonzero nonce, the count 0 and one more
    byte decodes, and the byte is left over; no transaction is decoded. *)
Lemma C6_block_with_a_byte_left_over :
  ParseBlock Fixture.maxAlloc Fixture.sizeofTx Fixture.BtcDecode Fixture.parser
    (Fixture.header [x01; x00; x00; x00] ++ [x00; xab])
  = Ok (Fixture.block 82 [])
  /\ ParseBlock_reader Fixture.maxAlloc Fixture.sizeofTx Fixture.BtcDecode
       Fixture.parser
       (Fixture.header [x01; x00; x00; x00] ++ [x00; xab])
     = Ok (Fixture.block 82 [], [xab])
  /\ [xab] <> @nil byte.
Proof. repeat split; try reflexivity. discriminate. Qed.

Lemma C6_trailing_bytes_are_ignored_witness :
  StreamDecoder Fixture.BtcDecode
  /\ ParseBlock_reader Fixture.maxAlloc Fixture.sizeofTx Fixture.BtcDecode
       Fixture.parser
       (Fixture.header [x01; x00; x00; x00] ++ [x01; x00])
     = Ok (Fixture.block 82 [Fixture.spend], [])
  /\ ParseBlock Fixture.maxAlloc Fixture.sizeofTx Fixture.BtcDecode
       Fixture.parser
       (Fixture.header [x01; x00; x00; x00] ++ [x01; x00])
     = Ok (Fixture.block 82 [Fixture.spend])
  /\ (exists consumed,
         Fixture.header [x01; x00; x00; x00] ++ [x01; x00] = consumed ++ [])
  /\ forall x : list byte,
       ParseBlock_reader Fixture.maxAlloc Fixture.sizeofTx Fixture.BtcDecode
         Fixture.parser
         ((Fixture.header [x01; x00; x00; x00] ++ [x01; x00]) ++ x)
       = Ok (bchain.Block.mk
               (bchain.BlockHeader.mk EmptyString EmptyString EmptyString 0 0
                  (Z.of_nat
                     (List.length
                        (Fixture.header [x01; x00; x00; x00] ++ [x01; x00]))
                   + Z.of_nat (List.length x))
                  (bchain.BlockHeader.Time
                     (bchain.Block.BlockHeader
                        (Fixture.block 82 [Fixture.spend]))))
               (bchain.Block.Txs (Fixture.block 82 [Fixture.spend])),
             [] ++ x).
Proof.
  split; [exact Uint8_StreamDecoder|].
  split; [reflexivity|].
  apply (C6_trailing_bytes_are_ignored Fixture.maxAlloc Fixture.sizeofTx
           Fixture.MsgTx Fixture.BtcDecode Fixture.parser
           Uint8_StreamDecoder
           (Fixture.header [x01; x00; x00; x00] ++ [x01; x00])
           (Fixture.block 82 [Fixture.spend]) []).
  reflexivity.
Defined.

(** Two transactions are declared and the stream ends after the first. *)
Lemma ParseBlock_propagates_errors_example :
  parseBlockHeader Fixture.maxAlloc
    (Fixture.header [x01; x00; x00; x00] ++ [x02; x00])
  = Ok (Fixture.decoded 1, [x02; x00])
  /\ wire.ReadVarInt [x02; x00] = Ok (2, [x00])
  /\ allocatable Fixture.maxAlloc Fixture.sizeofTx 2
  /\ Decodes Fixture.BtcDecode [x00] [x00] []
  /\ Z.of_nat (List.length [x00]) < 2
  /\ Fixture.BtcDecode [] = Err io_EOF
  /\ ParseBlock Fixture.maxAlloc Fixture.sizeofTx Fixture.BtcDecode
       Fixture.parser (Fixture.header [x01; x00; x00; x00] ++ [x02; x00])
     = Err io_EOF.
Proof.
  assert (Halloc : allocatable Fixture.maxAlloc Fixture.sizeofTx 2)
    by (unfold allocatable, Fixture.maxAlloc, Fixture.sizeofTx; lia).
  assert (Hdec : Decodes Fixture.BtcDecode [x00] [x00] [])
    by (econstructor; [reflexivity | constructor]).
  split; [reflexivity|]. split; [reflexivity|]. split; [exact Halloc|].
  split; [exact Hdec|]. split; [simpl; lia|]. split; [reflexivity|].
  apply (proj1 (proj2 (proj2
           (ParseBlock_propagates_errors Fixture.maxAlloc Fixture.sizeofTx
              Fixture.MsgTx Fixture.BtcDecode Fixture.parser
              (Fixture.header [x01; x00; x00; x00] ++ [x02; x00]) io_EOF)))
           (Fixture.decoded 1) [x02; x00] 2 [x00] [x00] []).
  - reflexivity.
  - reflexivity.
  - exact Halloc.
  - exact Hdec.
  - simpl. lia.
  - reflexivity.
Defined.

Lemma C9_json_import_witness :
  (Fixture.json_Unmarshal [x01] = Ok (Fixture.tx [Fixture.vout "1.5"])
   /\ bchain.Tx.Vout (Fixture.tx [Fixture.vout "1.5"]) = [Fixture.vout "1.5"]
   /\ bchain.Vout.JsonValue (Fixture.vout "1.5") = "1.5"
   /\ (forall n,
          AmountToBigInt Fixture.parser n = BaseParser.AmountToBigInt 8 n)
   /\ exists tx',
        ParseTxFromJson Fixture.json_Unmarshal Fixture.parser [x01] = Ok tx'
        /\ bchain.Tx.Vout tx'
           = [bchain.Vout.mk 150000000 EmptyString
                (bchain.Vout.N (Fixture.vout "1.5"))
                (bchain.Vout.ScriptPubKey (Fixture.vout "1.5"))])
  /\ (Fixture.json_Unmarshal [xbb]
      = Ok (Fixture.tx [Fixture.vout "1.5"; Fixture.vout "1.x"])
      /\ AmountToBigInt Fixture.parser "1.x"
         = Err (errors_New "AmountToBigInt: failed to convert")
      /\ ParseTxFromJson Fixture.json_Unmarshal Fixture.parser [xbb]
         = Err (errors_New "AmountToBigInt: failed to convert")).
Proof.
  split.
  - split; [reflexivity|]. split; [reflexivity|]. split; [reflexivity|].
    split; [reflexivity|].
    apply (proj2 (proj2 (proj2 (proj2
             (C9_json_import Fixture.MsgTx Fixture.json_Unmarshal
                Fixture.parser [x01]))))
             (Fixture.tx [Fixture.vout "1.5"]) (Fixture.vout "1.5"));
      reflexivity.
  - split; [reflexivity|]. split; [reflexivity|].
    apply (proj1 (proj2 (proj2
             (C9_json_import Fixture.MsgTx Fixture.json_Unmarshal
                Fixture.parser [xbb])))
             (Fixture.tx [Fixture.vout "1.5"; Fixture.vout "1.x"])
             [Fixture.vout "1.5"] (Fixture.vout "1.x") []).
    + reflexivity.
    + reflexivity.
    + constructor; [|constructor]. exists 150000000. reflexivity.
    + reflexivity.
Defined.

(** * Examples of the further properties *)

Lemma X2_block_transactions_are_normalized_witness :
  ParseBlock Fixture.maxAlloc Fixture.sizeofTx Fixture.BtcDecode Fixture.parser
    Sample.mined
  = Ok (Fixture.block 83 [Fixture.spend; Fixture.fromMsgTx x01 false])
  /\ Forall (fun tx => Normalized tx /\ fst (parseIndexTx tx) = tx)
       (bchain.Block.Txs
          (Fixture.block 83 [Fixture.spend; Fixture.fromMsgTx x01 false])).
Proof.
  split; [reflexivity|].
  apply (X2_block_transactions_are_normalized Fixture.maxAlloc
           Fixture.sizeofTx Fixture.MsgTx Fixture.BtcDecode Fixture.parser
           Sample.mined).
  reflexivity.
Defined.

Lemma X3_json_import_frame_witness :
  ParseTxFromJson Fixture.json_Unmarshal Fixture.parser [x01]
  = Ok Sample.imported
  /\ Normalized Sample.imported.
Proof.
  split; [reflexivity|].
  apply (proj1 (X3_json_import_frame Fixture.MsgTx Fixture.json_Unmarshal
                  Fixture.parser [x01] Sample.imported eq_refl)).
Defined.

Lemma X4_block_shape_witness :
  ParseBlock Fixture.maxAlloc Fixture.sizeofTx Fixture.BtcDecode Fixture.parser
    Sample.staked
  = Ok (Fixture.block 85 [])
  /\ (81 <= List.length Sample.staked)%nat
  /\ (wire.littleEndian (firstn 4 (skipn 76 Sample.staked)) = 0 ->
      (82 <= List.length Sample.staked)%nat).
Proof.
  split; [reflexivity|].
  pose proof (X4_block_shape Fixture.maxAlloc Fixture.sizeofTx Fixture.MsgTx
                Fixture.BtcDecode Fixture.parser Sample.staked
                (Fixture.block 85 []) eq_refl) as H.
  split; [exact (proj1 H) | exact (proj1 (proj2 H))].
Defined.

Lemma X5_block_time_is_the_word_at_offset_68_witness :
  ParseBlock Fixture.maxAlloc Fixture.sizeofTx Fixture.BtcDecode Fixture.parser
    Sample.staked
  = Ok (Fixture.block 85 [])
  /\ bchain.BlockHeader.Time (bchain.Block.BlockHeader (Fixture.block 85 []))
     = wire.littleEndian (firstn 4 (skipn 68 Sample.staked))
  /\ 0 <= bchain.BlockHeader.Time
            (bchain.Block.BlockHeader (Fixture.block 85 [])) < 2 ^ 32.
Proof.
  split; [reflexivity|].
  apply (X5_block_time_is_the_word_at_offset_68 Fixture.maxAlloc
           Fixture.sizeofTx Fixture.MsgTx Fixture.BtcDecode Fixture.parser
           Sample.staked).
  reflexivity.
Defined.

(** Four bytes: the version is read and the stream ends at a field. *)
Lemma X6_short_buffer_is_an_EOF_error_witness :
  (List.length [x01; x00; x00; x00] < 80)%nat
  /\ exists e,
       (e = io_EOF \/ e = io_ErrUnexpectedEOF)
       /\ parseBlockHeader Fixture.maxAlloc [x01; x00; x00; x00] = Err e
       /\ ParseBlock Fixture.maxAlloc Fixture.sizeofTx Fixture.BtcDecode
            Fixture.parser [x01; x00; x00; x00]
          = Err e
       /\ ([x01; x00; x00; x00] = [] -> e = io_EOF).
Proof.
  split; [simpl; lia|].
  apply (X6_short_buffer_is_an_EOF_error Fixture.maxAlloc Fixture.sizeofTx
           Fixture.MsgTx Fixture.BtcDecode Fixture.parser
           [x01; x00; x00; x00]).
  simpl. lia.
Defined.

Lemma X7_header_with_nonce_always_decodes_witness :
  (80 <= List.length Sample.mined)%nat
  /\ wire.littleEndian (firstn 4 (skipn 76 Sample.mined)) <> 0
  /\ exists h,
       parseBlockHeader Fixture.maxAlloc Sample.mined
       = Ok (h, skipn 80 Sample.mined)
       /\ wire.BlockHeader.Nonce h
          = wire.littleEndian (firstn 4 (skipn 76 Sample.mined))
       /\ wire.BlockHeader.Timestamp h
          = wire.littleEndian (firstn 4 (skipn 68 Sample.mined)).
Proof.
  split; [simpl; lia|]. split; [discriminate|].
  apply (X7_header_with_nonce_always_decodes Fixture.maxAlloc Sample.mined).
  - simpl. lia.
  - discriminate.
Defined.

Lemma X8_trailer_bytes_do_not_matter_witness :
  wire.BlockHeader.Deserialize (Fixture.header [x00; x00; x00; x00])
  = Ok (Fixture.decoded 0, [])
  /\ wire.ReadVarInt [x03] = Ok (3, [])
  /\ allocatable Fixture.maxAlloc 1 3
  /\ ParseBlock Fixture.maxAlloc Fixture.sizeofTx Fixture.BtcDecode
       Fixture.parser
       (Fixture.header [x00; x00; x00; x00]
        ++ [x03] ++ [xaa; xbb; xcc] ++ [x00])
     = ParseBlock Fixture.maxAlloc Fixture.sizeofTx Fixture.BtcDecode
         Fixture.parser
         (Fixture.header [x00; x00; x00; x00]
          ++ [x03] ++ [x00; x00; x00] ++ [x00]).
Proof.
  assert (Halloc : allocatable Fixture.maxAlloc 1 3)
    by (unfold allocatable, Fixture.maxAlloc; lia).
  split; [reflexivity|]. split; [reflexivity|]. split; [exact Halloc|].
  apply (proj2 (proj2
           (X8_trailer_bytes_do_not_matter Fixture.maxAlloc Fixture.sizeofTx
              Fixture.MsgTx Fixture.BtcDecode Fixture.parser
              (Fixture.header [x00; x00; x00; x00]) (Fixture.decoded 0)
              [x03] 3 [xaa; xbb; xcc] [x00; x00; x00] [x00]
              eq_refl eq_refl eq_refl Halloc eq_refl eq_refl))).
Defined.

(** The length 3 written with the discriminant 0xfd. *)
Lemma X9_noncanonical_trailer_length_is_refused_witness :
  wire.BlockHeader.Deserialize (Fixture.header [x00; x00; x00; x00])
  = Ok (Fixture.decoded 0, [])
  /\ wire.littleEndian [x03; x00] < 0xfd
  /\ ParseBlock Fixture.maxAlloc Fixture.sizeofTx Fixture.BtcDecode
       Fixture.parser
       (Fixture.header [x00; x00; x00; x00] ++ xfd :: [x03; x00] ++ [xaa])
     = Err (wire_ErrNonCanonicalVarInt 3 xfd 0xfd).
Proof.
  split; [reflexivity|]. split; [reflexivity|].
  apply (proj1
           (X9_noncanonical_trailer_length_is_refused Fixture.maxAlloc
              Fixture.sizeofTx Fixture.MsgTx Fixture.BtcDecode Fixture.parser
              (Fixture.header [x00; x00; x00; x00]) (Fixture.decoded 0)
              [x03; x00] [xaa] eq_refl eq_refl)
           eq_refl eq_refl).
Defined.

Lemma X10_trailer_length_above_the_limit_panics_witness :
  wire.BlockHeader.Deserialize (Sample.oversized [x00; x00; x00; x00])
  = Ok (Fixture.decoded 0, repeat xff 9)
  /\ wire.ReadVarInt (repeat xff 9) = Ok (2 ^ 64 - 1, [])
  /\ Fixture.maxAlloc < 2 ^ 64 - 1
  /\ parseBlockHeader Fixture.maxAlloc (Sample.oversized [x00; x00; x00; x00])
     = Panic "runtime error: makeslice: len out of range".
Proof.
  split; [reflexivity|]. split; [reflexivity|]. split; [reflexivity|].
  apply (proj1
           (X10_trailer_length_above_the_limit_panics Fixture.maxAlloc
              Fixture.sizeofTx Fixture.MsgTx Fixture.BtcDecode Fixture.parser
              (Sample.oversized [x00; x00; x00; x00]) (Fixture.decoded 0)
              (repeat xff 9) (2 ^ 64 - 1) [] eq_refl eq_refl eq_refl
              eq_refl)).
Defined.

Lemma X11_transaction_count_above_the_limit_panics_witness :
  parseBlockHeader Fixture.maxAlloc (Sample.oversized [x01; x00; x00; x00])
  = Ok (Fixture.decoded 1, repeat xff 9)
  /\ wire.ReadVarInt (repeat xff 9) = Ok (2 ^ 64 - 1, [])
  /\ Fixture.maxAlloc < Fixture.sizeofTx * (2 ^ 64 - 1)
  /\ ParseBlock Fixture.maxAlloc Fixture.sizeofTx Fixture.BtcDecode
       Fixture.parser (Sample.oversized [x01; x00; x00; x00])
     = Panic "runtime error: makeslice: len out of range".
Proof.
  split; [reflexivity|]. split; [reflexivity|]. split; [reflexivity|].
  apply (X11_transaction_count_above_the_limit_panics Fixture.maxAlloc
           Fixture.sizeofTx Fixture.MsgTx Fixture.BtcDecode Fixture.parser
           (Sample.oversized [x01; x00; x00; x00]) (Fixture.decoded 1)
           (repeat xff 9) (2 ^ 64 - 1) [] eq_refl eq_refl eq_refl).
Defined.

Lemma Bitcoin_registry_is_fresh :
  ~ In MainnetMagic Bitcoin.registeredNets
  /\ ~ In TestnetMagic Bitcoin.registeredNets
  /\ ~ In RegtestMagic Bitcoin.registeredNets.
Proof.
  repeat split; intros H; simpl in H;
    repeat (destruct H as [H|H]; [discriminate H|]); exact H.
Defined.

Lemma X12_first_call_registers_the_three_networks_witness :
  (~ In MainnetMagic Bitcoin.registeredNets
   /\ ~ In TestnetMagic Bitcoin.registeredNets
   /\ ~ In RegtestMagic Bitcoin.registeredNets)
  /\ GetChainParams (init Bitcoin.lib) "regtest" Bitcoin.registeredNets
     = (Ok (chaincfg.mk "regtest" RegtestMagic 1 [x6f] [xc4]),
        RegtestMagic :: TestnetMagic :: MainnetMagic
        :: Bitcoin.registeredNets).
Proof.
  split; [exact Bitcoin_registry_is_fresh|].
  apply (proj1
           (X12_first_call_registers_the_three_networks Bitcoin.lib "regtest"
              Bitcoin.registeredNets
              (proj1 Bitcoin_registry_is_fresh)
              (proj1 (proj2 Bitcoin_registry_is_fresh))
              (proj2 (proj2 Bitcoin_registry_is_fresh)))).
Defined.

Lemma X14_magic_clash_panics_witness :
  ~ In MainnetMagic (TestnetMagic :: Bitcoin.registeredNets)
  /\ In TestnetMagic (TestnetMagic :: Bitcoin.registeredNets)
  /\ GetChainParams (init Bitcoin.lib) "test"
       (TestnetMagic :: Bitcoin.registeredNets)
     = (Panic "duplicate Bitcoin network",
        MainnetMagic :: TestnetMagic :: Bitcoin.registeredNets).
Proof.
  assert (Hmain : ~ In MainnetMagic (TestnetMagic :: Bitcoin.registeredNets)).
  { intros H. simpl in H.
    repeat (destruct H as [H|H]; [discriminate H|]). exact H. }
  split; [exact Hmain|]. split; [left; reflexivity|].
  apply (proj1 (X14_magic_clash_panics Bitcoin.lib "test"
                  (TestnetMagic :: Bitcoin.registeredNets) Hmain)).
  left. reflexivity.
Defined.

(** The generic resolver of the examples on a pay-to-pubkey-hash script. *)
Lemma X15_only_the_generic_resolver_gives_searchable_results_witness :
  GetAddressesFromAddrDesc Fixture.parser [x76; xa9; x14; x88; xac]
  = ((["a1"], true, None), [[x76; xa9; x14; x88; xac]])
  /\ ([[x76; xa9; x14; x88; xac]] = []
      \/ [[x76; xa9; x14; x88; xac]] = [[x76; xa9; x14; x88; xac]])
  /\ (true = true \/ @None error <> None \/ List.length ["a1"] <> 1%nat ->
      [[x76; xa9; x14; x88; xac]] = [[x76; xa9; x14; x88; xac]]
      /\ OutputScriptToAddressesFunc Fixture.parser [x76; xa9; x14; x88; xac]
         = (["a1"], true, None)).
Proof.
  split; [reflexivity|].
  apply (X15_only_the_generic_resolver_gives_searchable_results
           Fixture.MsgTx Fixture.parser [x76; xa9; x14; x88; xac]
           ["a1"] true None [[x76; xa9; x14; x88; xac]]).
  reflexivity.
Defined.
